(** * kc: the keyfile data model of [src/utils/keyfiles.py]

    A shallow embedding of the three file abstractions of the credential
    store ([PublicKeyFile], [SecretKeyFile], [PasswdFile]), of the part of
    [pathlib] they inherit from (POSIX flavour, as of CPython 3.11, the last
    version in which [type(Path())._flavour] exists), and of the part of
    the operating system they touch (a tree of directories and regular
    files, the standard streams, the answers typed at a prompt). *)

From Stdlib Require Import ZArith Ascii String List.
From Stdlib.Strings Require Import Byte.
From stdpp Require Import base option list strings gmap.

Set Warnings "-register-all".

Local Open Scope string_scope.
Local Open Scope list_scope.

(** ** Python strings *)

Module pystr.

(** [s.split(c)] for a one-character separator. *)
Fixpoint split (c : ascii) (s : string) : list string :=
  match s with
  | EmptyString => [EmptyString]
  | String a s' =>
      if Ascii.eqb a c then EmptyString :: split c s'
      else match split c s' with
           | h :: t => String a h :: t
           | [] => [String a EmptyString]
           end
  end.

(** [c in s]. *)
Fixpoint contains (c : ascii) (s : string) : bool :=
  match s with
  | EmptyString => false
  | String a s' => Ascii.eqb a c || contains c s'
  end.

(** [s.lstrip(c)]. *)
Fixpoint lstrip (c : ascii) (s : string) : string :=
  match s with
  | EmptyString => EmptyString
  | String a s' => if Ascii.eqb a c then lstrip c s' else s
  end.

(** [s.rfind(c)]: the highest index of [c], or [-1]. *)
Fixpoint rfind (c : ascii) (s : string) : Z :=
  match s with
  | EmptyString => (-1)%Z
  | String a s' =>
      let i := rfind c s' in
      if (0 <=? i)%Z then (i + 1)%Z
      else if Ascii.eqb a c then 0%Z else (-1)%Z
  end.

(** [s[n:]] and [s[:n]] for [0 <= n]. *)
Fixpoint drop (n : nat) (s : string) : string :=
  match n, s with
  | O, _ => s
  | S n', String _ s' => drop n' s'
  | S _, EmptyString => EmptyString
  end.

Fixpoint take (n : nat) (s : string) : string :=
  match n, s with
  | O, _ => EmptyString
  | S n', String a s' => String a (take n' s')
  | S _, EmptyString => EmptyString
  end.

Definition len (s : string) : Z := Z.of_nat (String.length s).

(** [sep.join(l)]. *)
Fixpoint join (sep : string) (l : list string) : string :=
  match l with
  | [] => EmptyString
  | [x] => x
  | x :: rest => x +:+ sep +:+ join sep rest
  end.

Definition startswith (c : ascii) (s : string) : bool :=
  match s with
  | String a _ => Ascii.eqb a c
  | EmptyString => false
  end.

Definition nonempty (s : string) : bool :=
  match s with EmptyString => false | _ => true end.

End pystr.

(** ** Outcomes of a Python call *)

(** The exception classes that the code raises or lets through.  Messages
    are not modelled.  [InvalidFilenameErr], [PasswdFileExistsErr] and
    [EmptyError] are the three classes [keyfiles.py] imports from
    [utils.exceptions]; [SystemExit] is what the builtin [exit] raises. *)
Inductive exn : Type :=
  | InvalidFilenameErr
  | PasswdFileExistsErr
  | EmptyError
  | FileNotFoundError
  | FileExistsError
  | NotADirectoryError
  | IsADirectoryError
  | AttributeError
  | TypeError
  | ValueError
  | CryptoError
  | UnicodeError
  | Abort
  | OtherError (name : string)
  | SystemExit (code : Z).

Inductive outcome (A : Type) : Type :=
  | Return (a : A)
  | Raise (e : exn).
Arguments Return {A} a.
Arguments Raise {A} e.

(** ** pathlib, POSIX flavour *)

Module pathlib.

Definition sep : ascii := "/"%char.

(** A parsed path.  The drive is always empty in this flavour and is left
    out; [_parts] starts with the root when there is one. *)
Record PurePath : Type := mkPath { _root : string; _parts : list string }.

(** [_PosixFlavour.splitroot]: the root (empty, one slash, or exactly two
    slashes) and the rest. *)
Definition splitroot (part : string) : string * string :=
  if pystr.startswith sep part then
    let stripped_part := pystr.lstrip sep part in
    if (pystr.len part - pystr.len stripped_part =? 2)%Z
    then ("//", stripped_part)
    else ("/", stripped_part)
  else ("", part).

Definition keep_component (x : string) : bool :=
  pystr.nonempty x && negb (String.eqb x ".").

(** The loop of [_Flavour.parse_parts] over [reversed(parts)]: [parsed]
    grows at its end, and the loop stops at the first rooted part. *)
Fixpoint parse_loop (it : list string) (parsed : list string)
  : string * list string :=
  match it with
  | [] => ("", parsed)
  | part :: it' =>
      if negb (pystr.nonempty part) then parse_loop it' parsed
      else
        let '(root, rel) := splitroot part in
        let parsed' :=
          if pystr.contains sep rel
          then parsed ++ filter (fun x => Is_true (keep_component x))
                                (rev (pystr.split sep rel))
          else if keep_component rel then parsed ++ [rel] else parsed in
        if pystr.nonempty root then (root, parsed')
        else parse_loop it' parsed'
  end.

Definition parse_parts (parts : list string) : PurePath :=
  let '(root, parsed) := parse_loop (rev parts) [] in
  let parsed := if pystr.nonempty root then parsed ++ [root] else parsed in
  mkPath root (rev parsed).

(** An argument of a path constructor: a string or a path object. *)
Inductive arg : Type :=
  | AStr (s : string)
  | APath (p : PurePath).

(** [PurePath._parse_args]: path arguments contribute their parts. *)
Definition _parse_args (args : list arg) : PurePath :=
  parse_parts
    (flat_map (fun a => match a with
                        | AStr s => [s]
                        | APath p => _parts p
                        end) args).

(** [_Flavour.join_parsed_parts] without drives: a rooted second path
    replaces the first. *)
Definition join_parsed_parts (p p2 : PurePath) : PurePath :=
  if pystr.nonempty (_root p2) then p2
  else mkPath (_root p) (_parts p ++ _parts p2).

(** [self / key]. *)
Definition truediv (self : PurePath) (key : string) : PurePath :=
  join_parsed_parts self (_parse_args [AStr key]).

Definition is_absolute (self : PurePath) : bool := pystr.nonempty (_root self).

(** [self.name]. *)
Definition name (self : PurePath) : string :=
  if (length (_parts self) =? (if pystr.nonempty (_root self) then 1 else 0))%nat
  then ""
  else List.last (_parts self) "".

(** [self.suffix]. *)
Definition suffix (self : PurePath) : string :=
  let name := name self in
  let i := pystr.rfind "."%char name in
  if ((0 <? i) && (i <? pystr.len name - 1))%Z
  then pystr.drop (Z.to_nat i) name
  else "".

(** [self.with_suffix(suffix)]. *)
Definition with_suffix (self : PurePath) (sfx : string) : outcome PurePath :=
  if pystr.contains sep sfx then Raise ValueError
  else if (pystr.nonempty sfx && negb (pystr.startswith "."%char sfx))
          || String.eqb sfx "." then Raise ValueError
  else
    let name := name self in
    if negb (pystr.nonempty name) then Raise ValueError
    else
      let old_suffix := suffix self in
      let name :=
        if negb (pystr.nonempty old_suffix) then name +:+ sfx
        else pystr.take (String.length name - String.length old_suffix) name
             +:+ sfx in
      Return (mkPath (_root self) (removelast (_parts self) ++ [name])).

(** [self.parent]. *)
Definition parent (self : PurePath) : PurePath :=
  if (length (_parts self) =? 1)%nat && pystr.nonempty (_root self)
  then self
  else mkPath (_root self) (removelast (_parts self)).

(** [str(self)]. *)
Definition str (self : PurePath) : string :=
  let s :=
    if pystr.nonempty (_root self)
    then _root self +:+ pystr.join "/" (tail (_parts self))
    else pystr.join "/" (_parts self) in
  if pystr.nonempty s then s else ".".

(** [self.absolute()], given the path object [cwd] that [self.cwd()]
    returns: an absolute path is returned as it is, for a relative one the
    result is [self._from_parts([cwd] + self._parts)]. *)
Definition absolute (cwd : PurePath) (self : PurePath) : PurePath :=
  if is_absolute self then self
  else _parse_args (APath cwd :: map AStr (_parts self)).

(** [self == other]: the parts are compared. *)
Definition eqb (p q : PurePath) : bool :=
  bool_decide (_parts p = _parts q).

End pathlib.


(** ** The operating system *)

Definition bytes : Type := list byte.

Module os.

(** A directory tree without links: regular files and directories, keyed
    by their canonical list of names from the root.  The root itself is
    the empty list and is always a directory. *)
Inductive node : Type :=
  | NFile (data : bytes)
  | NDir.

(** What the process does that can be observed from outside, oldest
    first: text sent to stdout or stderr by [click.echo], a confirmation
    prompt, and a call of a callable handed in by the caller. *)
Inductive event : Type :=
  | Echo (err : bool) (msg : string)
  | Prompt (msg : string)
  | Invoke.

Record World : Type := mkWorld {
  w_fs : gmap (list string) node;
  w_cwd : string;          (* [os.getcwd()] after its leading slash *)
  w_answers : list bool;   (* what the user will answer to prompts *)
  w_seed : N;              (* state of the system's random source *)
  w_trace : list event
}.

Definition set_fs (f : gmap (list string) node -> gmap (list string) node)
    (w : World) : World :=
  mkWorld (f (w_fs w)) (w_cwd w) (w_answers w) (w_seed w) (w_trace w).
Definition set_answers (a : list bool) (w : World) : World :=
  mkWorld (w_fs w) (w_cwd w) a (w_seed w) (w_trace w).
Definition set_seed (n : N) (w : World) : World :=
  mkWorld (w_fs w) (w_cwd w) (w_answers w) n (w_trace w).
Definition log (e : event) (w : World) : World :=
  mkWorld (w_fs w) (w_cwd w) (w_answers w) (w_seed w) (w_trace w ++ [e]).

Definition getcwd (w : World) : string := "/" +:+ w_cwd w.

Inductive errno : Type := ENOENT | ENOTDIR.

Definition exn_of_errno (e : errno) : exn :=
  match e with
  | ENOENT => FileNotFoundError
  | ENOTDIR => NotADirectoryError
  end.

Definition lookup_node (m : gmap (list string) node) (k : list string)
  : option node :=
  match k with
  | [] => Some NDir
  | _ => m !! k
  end.

(** Path resolution: every component is looked up in a directory that
    must exist; [..] steps to the parent, and the parent of the root is
    the root.  The result names the last component, which need not
    exist. *)
Fixpoint walk (m : gmap (list string) node) (cur : list string)
    (comps : list string) : errno + list string :=
  match comps with
  | [] => inr cur
  | c :: rest =>
      match lookup_node m cur with
      | None => inl ENOENT
      | Some (NFile _) => inl ENOTDIR
      | Some NDir =>
          if String.eqb c ".." then walk m (removelast cur) rest
          else walk m (cur ++ [c]) rest
      end
  end.

(** The components the kernel sees in [str(p)]. *)
Definition components (w : World) (p : pathlib.PurePath) : list string :=
  if pathlib.is_absolute p then tail (pathlib._parts p)
  else filter (fun x => Is_true (pathlib.keep_component x))
              (pystr.split pathlib.sep (w_cwd w)) ++ pathlib._parts p.

Definition resolve (w : World) (p : pathlib.PurePath) : errno + list string :=
  walk (w_fs w) [] (components w p).

Definition stat (w : World) (p : pathlib.PurePath) : errno + node :=
  match resolve w p with
  | inl e => inl e
  | inr k => match lookup_node (w_fs w) k with
             | None => inl ENOENT
             | Some n => inr n
             end
  end.

End os.

Import pathlib os.

(** ** Computations *)

(** A computation over a state [S]: it returns or raises, and the state
    keeps what was done before the exception. *)
Definition M (S A : Type) : Type := S -> outcome A * S.

Definition ret {S A} (a : A) : M S A := fun s => (Return a, s).
Definition raise {S A} (e : exn) : M S A := fun s => (Raise e, s).
Definition bind {S A B} (c : M S A) (k : A -> M S B) : M S B :=
  fun s => match c s with
           | (Return a, s') => k a s'
           | (Raise e, s') => (Raise e, s')
           end.
Definition lift_outcome {S A} (o : outcome A) : M S A := fun s => (o, s).
Definition modify {S} (f : S -> S) : M S unit := fun s => (Return tt, f s).
Definition gets {S A} (f : S -> A) : M S A := fun s => (Return (f s), s).

(** [try: c except E: h] for the exceptions [E] on which [h] is defined. *)
Definition try_except {S A} (c : M S A) (h : exn -> option (M S A)) : M S A :=
  fun s => match c s with
           | (Return a, s') => (Return a, s')
           | (Raise e, s') => match h e with
                              | Some k => k s'
                              | None => (Raise e, s')
                              end
           end.

Notation "'let*' x ':=' c 'in' k" := (bind c (fun x => k))
  (at level 10, x name, c at level 100, k at level 200).
Notation "c '>>' k" := (bind c (fun _ => k))
  (at level 100, k at level 200, right associativity).

(** ** Path methods that reach the file system, and click *)

(** [Path.exists()]: a failed [stat] with ENOENT or ENOTDIR means no. *)
Definition Path_exists (self : PurePath) : M World bool :=
  gets (fun w => match stat w self with inr _ => true | inl _ => false end).

(** [Path.is_dir()]. *)
Definition Path_is_dir (self : PurePath) : M World bool :=
  gets (fun w => match stat w self with inr NDir => true | _ => false end).

(** [os.mkdir(self)]. *)
Definition os_mkdir (self : PurePath) : M World unit :=
  fun w => match resolve w self with
           | inl e => (Raise (exn_of_errno e), w)
           | inr k => match lookup_node (w_fs w) k with
                      | Some _ => (Raise FileExistsError, w)
                      | None => (Return tt, set_fs (insert k NDir) w)
                      end
           end.

(** [Path.mkdir(exist_ok=...)] with [parents] left at its default, false:
    a missing ancestor is an error, an existing directory is accepted when
    [exist_ok] is set. *)
Definition Path_mkdir (self : PurePath) (exist_ok : bool) : M World unit :=
  try_except (os_mkdir self)
    (fun e => match e with
              | FileNotFoundError => None
              | _ => Some (let* d := Path_is_dir self in
                           if negb exist_ok || negb d then raise e else ret tt)
              end).

(** [with open(self, "rb") as f: f.read()]. *)
Definition read_file (self : PurePath) : M World bytes :=
  fun w => match stat w self with
           | inl e => (Raise (exn_of_errno e), w)
           | inr NDir => (Raise IsADirectoryError, w)
           | inr (NFile d) => (Return d, w)
           end.

(** [with open(self, "wb") as f: f.write(data)]: the file is created or
    truncated. *)
Definition write_file (self : PurePath) (data : bytes) : M World unit :=
  fun w => match resolve w self with
           | inl e => (Raise (exn_of_errno e), w)
           | inr k => match lookup_node (w_fs w) k with
                      | Some NDir => (Raise IsADirectoryError, w)
                      | _ => (Return tt, set_fs (insert k (NFile data)) w)
                      end
           end.

Definition click_echo (msg : string) (err : bool) : M World unit :=
  modify (log (Echo err msg)).

(** [click.confirm(text, abort=True)]: anything but a yes (a no, or the end
    of the input) raises [Abort]. *)
Definition click_confirm (text : string) : M World bool :=
  modify (log (Prompt text)) >>
  fun w => match w_answers w with
           | true :: rest => (Return true, set_answers rest w)
           | false :: rest => (Raise Abort, set_answers rest w)
           | [] => (Raise Abort, w)
           end.

(** The builtin [exit(code)]. *)
Definition exit {S A} (code : Z) : M S A := raise (SystemExit code).

(** One draw from the random source. *)
Definition draw : M World N :=
  fun w => (Return (w_seed w), set_seed (N.succ (w_seed w)) w).

(** [with open(self, "wb") as f: f.write(data)] where [data] is itself a
    computation: the file is opened, hence created or emptied, before
    [data] is evaluated. *)
Definition with_open_wb (self : PurePath) (data : M World bytes) : M World unit :=
  write_file self [] >>
  let* d := data in
  write_file self d.

(** ** Python objects handed in by the caller *)

(** The values a caller can pass where the code expects a key: a PyNaCl
    key object, or something else, in particular a callable. *)
Inductive pyobj : Type :=
  | OPrivateKey (raw : bytes)
  | OPublicKey (raw : bytes)
  | OBytes (b : bytes)
  | OCallable (f : World -> outcome pyobj * World)
  | ONone.

(** [f()]: calling leaves an [Invoke] in the trace. *)
Definition py_call (f : pyobj) : M World pyobj :=
  match f with
  | OCallable g => modify (log Invoke) >> g
  | _ => raise TypeError
  end.

(** ** PyNaCl, the codecs, and [utils.crypto] *)

(** What the code calls and [src/] does not contain: libsodium's sealed
    boxes behind [nacl.public], the UTF-8 codec of [str] and [bytes], and
    the repository's own [utils.crypto] ([KeySecretBox] and
    [PassEncryptedMessage]).  Randomised operations take their randomness
    as a number drawn from the world's source. *)
Class Crypto : Type := {
  crypto_scalarmult_base : bytes -> bytes;
  crypto_box_seal : N -> bytes -> bytes -> bytes;
  crypto_box_seal_open : bytes -> bytes -> bytes -> option bytes;
  utf8_encode : string -> outcome bytes;
  utf8_decode : bytes -> outcome string;
  PassEncryptedMessage : Type;
  KeySecretBox : Type;
  KeySecretBox_init : string -> N -> outcome KeySecretBox;
  KeySecretBox_encrypt :
    KeySecretBox -> N -> bytes -> outcome PassEncryptedMessage;
  KeySecretBox_decrypt_message :
    KeySecretBox -> PassEncryptedMessage -> string -> outcome bytes;
  PassEncryptedMessage_from_bytes : bytes -> outcome PassEncryptedMessage;
  PassEncryptedMessage_bytes : PassEncryptedMessage -> bytes
}.

Module nacl.

Definition SIZE : nat := 32.

(** [PrivateKey(raw)] and [PublicKey(raw)]. *)
Definition PrivateKey (raw : bytes) : outcome pyobj :=
  if (length raw =? SIZE)%nat then Return (OPrivateKey raw) else Raise TypeError.

Definition PublicKey (raw : bytes) : outcome pyobj :=
  if negb (length raw =? SIZE)%nat then Raise ValueError
  else Return (OPublicKey raw).

(** [key.encode()]. *)
Definition encode (key : pyobj) : outcome bytes :=
  match key with
  | OPrivateKey raw => Return raw
  | OPublicKey raw => Return raw
  | _ => Raise AttributeError
  end.

Record SealedBox : Type := mkSealedBox {
  _public_key : bytes;
  _private_key : option bytes
}.

Section WithCrypto.
Context `{Crypto}.

(** [SealedBox(recipient_key)]: the argument must be a key object. *)
Definition SealedBox_init (recipient_key : pyobj) : outcome SealedBox :=
  match recipient_key with
  | OPublicKey raw => Return (mkSealedBox raw None)
  | OPrivateKey raw =>
      Return (mkSealedBox (crypto_scalarmult_base raw) (Some raw))
  | _ => Raise TypeError
  end.

Definition encrypt (box : SealedBox) (plaintext : bytes) : M World bytes :=
  let* r := draw in
  ret (crypto_box_seal r plaintext (_public_key box)).

Definition decrypt (box : SealedBox) (ciphertext : bytes) : outcome bytes :=
  match _private_key box with
  | None => Raise TypeError
  | Some sk =>
      match crypto_box_seal_open ciphertext (_public_key box) sk with
      | Some m => Return m
      | None => Raise CryptoError
      end
  end.

End WithCrypto.

End nacl.

(** ** The classes of [keyfiles.py] *)

Inductive class : Type :=
  | C_PublicKeyFile | C_SecretKeyFile | C_PasswdFile
  | C_File | C_Path | C_PurePath | C_object.

(** The names bound in each class body ([pathlib] as of CPython 3.11). *)
Definition class_dict (c : class) : list string :=
  match c with
  | C_PublicKeyFile => ["PUBKEY_FILE_EXT"; "__init__"; "write"; "retrieve"]
  | C_SecretKeyFile =>
      ["SECKEY_FILE_EXT"; "__init__"; "encrypted_file_bytes";
       "write_encrypted"; "retrieve"]
  | C_PasswdFile =>
      ["PASSWD_FILE_EXT"; "__init__"; "from_service_name";
       "retrieve_passwd"; "write_passwd"]
  | C_File => ["__new__"; "_flavour"]
  | C_Path =>
      ["__new__"; "_make_child_relpath"; "__enter__"; "__exit__"; "cwd";
       "home"; "samefile"; "iterdir"; "_scandir"; "glob"; "rglob";
       "absolute"; "resolve"; "stat"; "owner"; "group"; "open";
       "read_bytes"; "read_text"; "write_bytes"; "write_text"; "readlink";
       "touch"; "mkdir"; "chmod"; "lchmod"; "unlink"; "rmdir"; "lstat";
       "rename"; "replace"; "symlink_to"; "hardlink_to"; "link_to";
       "exists"; "is_dir"; "is_file"; "is_mount"; "is_symlink";
       "is_block_device"; "is_char_device"; "is_fifo"; "is_socket";
       "expanduser"]
  | C_PurePath =>
      ["__new__"; "__reduce__"; "_parse_args"; "_from_parts";
       "_from_parsed_parts"; "_format_parsed_parts"; "_make_child";
       "__str__"; "__fspath__"; "as_posix"; "__bytes__"; "__repr__";
       "as_uri"; "_cparts"; "__eq__"; "__hash__"; "__lt__"; "__le__";
       "__gt__"; "__ge__"; "__class_getitem__"; "drive"; "root"; "anchor";
       "name"; "suffix"; "suffixes"; "stem"; "with_name"; "with_stem";
       "with_suffix"; "relative_to"; "is_relative_to"; "parts"; "joinpath";
       "__truediv__"; "__rtruediv__"; "parent"; "parents"; "is_absolute";
       "is_reserved"; "match"; "_drv"; "_root"; "_parts"; "_str"; "_hash";
       "_pparts"; "_cached_cparts"]
  | C_object =>
      ["__class__"; "__init__"; "__new__"; "__delattr__"; "__dir__";
       "__doc__"; "__eq__"; "__format__"; "__ge__"; "__getattribute__";
       "__gt__"; "__hash__"; "__init_subclass__"; "__le__"; "__lt__";
       "__ne__"; "__reduce__"; "__reduce_ex__"; "__repr__"; "__setattr__";
       "__sizeof__"; "__str__"; "__subclasshook__"; "__dict__";
       "__module__"; "__weakref__"]
  end.

(** Method resolution order of the three file classes. *)
Definition mro (c : class) : list class :=
  match c with
  | C_PublicKeyFile | C_SecretKeyFile | C_PasswdFile =>
      [c; C_File; C_Path; C_PurePath; C_object]
  | C_File => [C_File; C_Path; C_PurePath; C_object]
  | C_Path => [C_Path; C_PurePath; C_object]
  | C_PurePath => [C_PurePath; C_object]
  | C_object => [C_object]
  end.

(** Attribute lookup on an instance of [c] whose own dictionary holds the
    names [instance_dict]: the class that provides [name], if any. *)
Definition lookup_attr (c : class) (instance_dict : list string) (name : string)
  : option (option class) :=
  if existsb (String.eqb name) instance_dict then Some None
  else option_map Some
         (List.find (fun k => existsb (String.eqb name) (class_dict k)) (mro c)).

(** [obj.name] evaluated for a call [obj.name(...)]: a name that is found
    nowhere raises before any argument is used. *)
Definition getattr {S} (c : class) (instance_dict : list string) (name : string)
  : M S (option class) :=
  match lookup_attr c instance_dict name with
  | Some owner => ret owner
  | None => raise AttributeError
  end.

Definition PUBKEY_FILE_EXT : string := ".pub".
Definition SECKEY_FILE_EXT : string := ".enc".
Definition PASSWD_FILE_EXT : string := ".enc".

(** [cls.cwd()], which is [cls(os.getcwd())]: the class is called on the
    working directory.  [File.__new__] builds that path and leaves it as it
    is, since the working directory is absolute; then the [__init__] of the
    class, here [init], runs on it. *)
Definition Path_cwd (init : PurePath -> outcome unit) : M World PurePath :=
  let* s := gets getcwd in
  let cwd := _parse_args [AStr s] in
  lift_outcome (init cwd) >>
  ret cwd.

(** [File.__new__] for a class whose [__init__] is [init]: the path built
    from the arguments, made absolute.  [absolute()] returns an absolute
    path as it is and asks for [self.cwd()] otherwise. *)
Definition File_new (init : PurePath -> outcome unit) (args : list arg)
  : M World PurePath :=
  let self := _parse_args args in
  if is_absolute self then ret self
  else
    let* cwd := Path_cwd init in
    ret (absolute cwd self).

Definition PublicKeyFile_init (self : PurePath) : outcome unit :=
  if negb (String.eqb (suffix self) PUBKEY_FILE_EXT)
  then Raise InvalidFilenameErr
  else Return tt.

Definition SecretKeyFile_init (self : PurePath) : outcome unit :=
  if negb (String.eqb (suffix self) SECKEY_FILE_EXT)
  then Raise InvalidFilenameErr
  else Return tt.

(** [self.suffix is None]: a [str] is never [None]. *)
Definition is_None (s : string) : bool := false.

Definition PasswdFile_init (self : PurePath) : outcome unit :=
  if is_None (suffix self) then Raise InvalidFilenameErr
  else if negb (String.eqb (suffix self) PASSWD_FILE_EXT)
  then Raise InvalidFilenameErr
  else Return tt.

(** Calling a class: [__new__], then [__init__] on the new object. *)
Definition construct (init : PurePath -> outcome unit) (args : list arg)
  : M World PurePath :=
  let* self := File_new init args in
  lift_outcome (init self) >>
  ret self.

Definition PublicKeyFile (args : list arg) : M World PurePath :=
  construct PublicKeyFile_init args.
Definition SecretKeyFile (args : list arg) : M World PurePath :=
  construct SecretKeyFile_init args.
Definition PasswdFile (args : list arg) : M World PurePath :=
  construct PasswdFile_init args.

(** [PasswdFile.from_service_name(service_name, passwd_store_path)]. *)
Definition from_service_name (service_name : string)
    (passwd_store_path : PurePath) : M World PurePath :=
  if (String.length service_name =? 0)%nat then raise EmptyError
  else PasswdFile
         [APath (truediv passwd_store_path (service_name +:+ PASSWD_FILE_EXT))].

(** The state of a process that holds one [SecretKeyFile] object: the
    world, and the entry [encrypted_file_bytes] of the object's own
    dictionary, where [functools.cached_property] keeps its value. *)
Record Process (container : Type) : Type := mkProcess {
  world : World;
  cached : option container
}.
Arguments mkProcess {container} world cached.
Arguments world {container} p.
Arguments cached {container} p.

Definition in_world {C A} (c : M World A) : M (Process C) A :=
  fun s => let '(r, w') := c (world s) in (r, mkProcess w' (cached s)).

Definition set_cached {C} (v : option C) : M (Process C) unit :=
  modify (fun s => mkProcess (world s) v).

Section Methods.
Context `{Crypto}.

(** The handler of both overwrite prompts:
    [except click.exceptions.Abort: click.echo(...); exit(0)]. *)
Definition on_abort : exn -> option (M World unit) :=
  fun e => match e with
           | Abort => Some (click_echo "Operation Cancelled! Aborting..." false >>
                            exit 0)
           | _ => None
           end.

(** *** PublicKeyFile *)

Definition PublicKeyFile_write (self : PurePath) (public_key : pyobj)
    (should_confirm_overwrite should_print_write_mesg : bool) : M World unit :=
  let* present := Path_exists self in
  (if should_confirm_overwrite && present then
     try_except
       (click_confirm ("file " +:+ str self +:+ " already EXISTS! Overwrite?") >>
        ret tt)
       on_abort
   else ret tt) >>
  Path_mkdir (parent self) true >>
  with_open_wb self (lift_outcome (nacl.encode public_key)) >>
  if should_print_write_mesg
  then click_echo ("public key file written at " +:+ str self) false
  else ret tt.

Definition PublicKeyFile_retrieve (self : PurePath) : M World pyobj :=
  let* present := Path_exists self in
  (if negb present then
     click_echo ("public key does not exist in " +:+ str self +:+ "!") true >>
     exit 0
   else ret tt) >>
  let* raw := read_file self in
  lift_outcome (nacl.PublicKey raw).

(** *** SecretKeyFile *)

(** The body of the property [encrypted_file_bytes]. *)
Definition encrypted_file_bytes_body (self : PurePath)
  : M World PassEncryptedMessage :=
  let* present := Path_exists self in
  (if negb present then
     click_echo ("secret key does not exist in " +:+ str self +:+ "!") true >>
     exit 0
   else ret tt) >>
  let* raw := read_file self in
  lift_outcome (PassEncryptedMessage_from_bytes raw).

(** [self.encrypted_file_bytes]: the instance dictionary is looked up
    first; on a miss the body runs and its value is stored. *)
Definition encrypted_file_bytes (self : PurePath)
  : M (Process PassEncryptedMessage) PassEncryptedMessage :=
  let* hit := gets cached in
  match hit with
  | Some val => ret val
  | None =>
      let* val := in_world (encrypted_file_bytes_body self) in
      set_cached (Some val) >>
      ret val
  end.

(** [hasattr(self, "encrypted_file_bytes")]: the attribute is fetched,
    and only [AttributeError] means no. *)
Definition hasattr_encrypted_file_bytes (self : PurePath)
  : M (Process PassEncryptedMessage) bool :=
  try_except (encrypted_file_bytes self >> ret true)
    (fun e => match e with
              | AttributeError => Some (ret false)
              | _ => None
              end).

(** [del self.encrypted_file_bytes]: the property has no deleter, so the
    entry of the instance dictionary is removed. *)
Definition del_encrypted_file_bytes
  : M (Process PassEncryptedMessage) unit :=
  let* hit := gets cached in
  match hit with
  | Some _ => set_cached None
  | None => raise AttributeError
  end.

(** The statement
    [if hasattr(self, "encrypted_file_bytes"): del self.encrypted_file_bytes]. *)
Definition invalidate (self : PurePath)
  : M (Process PassEncryptedMessage) unit :=
  let* has := hasattr_encrypted_file_bytes self in
  if has then del_encrypted_file_bytes else ret tt.

Definition SecretKeyFile_write_encrypted (self : PurePath)
    (secret_key_bytes : pyobj) (master_passwd : string)
    (should_confirm_overwrite should_print_write_mesg : bool)
  : M (Process PassEncryptedMessage) unit :=
  in_world
    (let* present := Path_exists self in
     if should_confirm_overwrite && present then
       try_except
         (click_confirm ("file " +:+ str self +:+ " already EXISTS! Overwrite?") >>
          ret tt)
         on_abort
     else ret tt) >>
  let* r := in_world draw in
  let* secret_box := lift_outcome (KeySecretBox_init master_passwd r) in
  let* raw := lift_outcome (nacl.encode secret_key_bytes) in
  let* r' := in_world draw in
  let* encrypted_secret_key :=
    lift_outcome (KeySecretBox_encrypt secret_box r' raw) in
  in_world (Path_mkdir (parent self) true) >>
  in_world (with_open_wb self
              (ret (PassEncryptedMessage_bytes encrypted_secret_key))) >>
  invalidate self >>
  if should_print_write_mesg
  then in_world (click_echo ("secret key file written at " +:+ str self) false)
  else ret tt.

Definition SecretKeyFile_retrieve (self : PurePath) (master_passwd : string)
  : M (Process PassEncryptedMessage) pyobj :=
  let* r := in_world draw in
  let* secret_box := lift_outcome (KeySecretBox_init master_passwd r) in
  let* container := encrypted_file_bytes self in
  let* plain :=
    lift_outcome
      (KeySecretBox_decrypt_message secret_box container master_passwd) in
  lift_outcome (nacl.PrivateKey plain).

(** *** PasswdFile *)

Definition retrieve_passwd (self : PurePath) (secret_key : pyobj)
  : M World string :=
  let* present := Path_exists self in
  (if negb present then raise FileNotFoundError else ret tt) >>
  let* encrypted_passwd_bytes := read_file self in
  let* box := lift_outcome (nacl.SealedBox_init secret_key) in
  let* decrypted_passwd_bytes :=
    lift_outcome (nacl.decrypt box encrypted_passwd_bytes) in
  lift_outcome (utf8_decode decrypted_passwd_bytes).

Definition write_passwd (self : PurePath) (passwd : string)
    (public_key : pyobj) : M World unit :=
  let* present := Path_exists self in
  (if present then raise PasswdFileExistsErr else ret tt) >>
  let* box := lift_outcome (nacl.SealedBox_init public_key) in
  let* plain := lift_outcome (utf8_encode passwd) in
  let* encrypted_passwd_bytes := nacl.encrypt box plain in
  with_open_wb self (ret encrypted_passwd_bytes).

(** [pass_file.<name>] on a [PasswdFile] object; the code stores nothing
    in the object's own dictionary.  A call [pass_file.alias(dest)], as
    in the tests, starts with this lookup. *)
Definition PasswdFile_getattr (self : PurePath) (name : string)
  : M World (option class) :=
  getattr C_PasswdFile [] name.

(** What the memoized container must be: the parse of the bytes that
    are in the file now. *)
Definition cache_consistent (self : PurePath)
    (s : Process PassEncryptedMessage) : Prop :=
  forall c, cached s = Some c ->
  exists raw, stat (world s) self = inr (NFile raw)
              /\ PassEncryptedMessage_from_bytes raw = Return c.

(** What [retrieve] computes from the bytes [raw] of the file with the
    box [box] of the password. *)
Definition decrypt_file_bytes (box : KeySecretBox) (master_passwd : string)
    (raw : bytes) : outcome pyobj :=
  match PassEncryptedMessage_from_bytes raw with
  | Return container =>
      match KeySecretBox_decrypt_message box container master_passwd with
      | Return plain => nacl.PrivateKey plain
      | Raise e => Raise e
      end
  | Raise e => Raise e
  end.

End Methods.

(** The kind of error the specification names for a read of a path that
    does not exist: [FileNotFoundError], or a class called [KeyNotFound]. *)
Definition not_found_error (e : exn) : bool :=
  match e with
  | FileNotFoundError => true
  | OtherError name => String.eqb name "KeyNotFound"
  | _ => false
  end.

(** ** A small instance to run the model on

    Stand-ins for the primitives, good enough to execute the methods on
    concrete worlds: the public key of a private key is its reversal, a
    sealed box is the recipient's public key followed by the message, and
    a password box is the password followed by the message. *)
Module demo.

Fixpoint strip_prefix (p l : bytes) : option bytes :=
  match p, l with
  | [], _ => Some l
  | a :: p', b :: l' => if Byte.eqb a b then strip_prefix p' l' else None
  | _ :: _, [] => None
  end.

Definition seal_open (c pk sk : bytes) : option bytes :=
  match strip_prefix pk (rev sk) with
  | Some [] => strip_prefix pk c
  | _ => None
  end.

Definition decrypt_message (box : string) (c : bytes) (passwd : string)
  : outcome bytes :=
  match strip_prefix (list_byte_of_string box) c with
  | Some m => Return m
  | None => Raise CryptoError
  end.

#[export] Instance crypto : Crypto := {|
  crypto_scalarmult_base := @rev byte;
  crypto_box_seal := fun _ m pk => pk ++ m;
  crypto_box_seal_open := seal_open;
  utf8_encode := fun s => Return (list_byte_of_string s);
  utf8_decode := fun b => Return (string_of_list_byte b);
  PassEncryptedMessage := bytes;
  KeySecretBox := string;
  KeySecretBox_init := fun passwd _ => Return passwd;
  KeySecretBox_encrypt := fun box _ m => Return (list_byte_of_string box ++ m);
  KeySecretBox_decrypt_message := decrypt_message;
  PassEncryptedMessage_from_bytes := fun b => Return b;
  PassEncryptedMessage_bytes := fun c => c
|}.

(** A 32-byte private key and its public key. *)
Definition secret_key : bytes := List.repeat x01 31 ++ [x02].
Definition public_key : bytes := rev secret_key.

(** A process in [/home/u] with an empty disk, and one whose disk has the
    store directory [/s]. *)
Definition empty_world : World := mkWorld ∅ "home/u" [] 0 [].
Definition store_world : World :=
  mkWorld {[ ["s"] := NDir ]} "home/u" [] 0 [].

Definition store : PurePath := _parse_args [AStr "/s"].
Definition email : PurePath := _parse_args [AStr "/s/email.enc"].
Definition alice_pub : PurePath := _parse_args [AStr "/s/alice.pub"].
Definition alice_enc : PurePath := _parse_args [AStr "/s/alice.enc"].
Definition deep_pub : PurePath := _parse_args [AStr "/a/b/alice.pub"].
Definition deep_enc : PurePath := _parse_args [AStr "/a/b/alice.enc"].

(** A provider of the private key, and one that fails when called. *)
Definition provider : pyobj := OCallable (ret (OPrivateKey secret_key)).
Definition failing_provider : pyobj :=
  OCallable (raise (OtherError "AssertionError")).

(** The world after [email] has been written. *)
Definition written_world : World :=
  snd (write_passwd email "hunter2" (OPublicKey public_key) store_world).

(** A process that wrote [alice.enc] under a master password and then
    read it back, so that the container is memoized; and another private
    key, to overwrite the file with. *)
Definition master_passwd : string := "M0Ms_-Sp46h377i".
Definition reading_process : Process bytes :=
  snd (SecretKeyFile_retrieve alice_enc master_passwd
         (snd (SecretKeyFile_write_encrypted alice_enc (OPrivateKey secret_key)
                 master_passwd true false (mkProcess store_world None)))).
Definition other_secret_key : bytes := List.repeat x03 32.

End demo.

(** A path component as the parser leaves it: not empty, not a single dot,
    and free of separators. *)
Definition clean (x : string) : Prop :=
  keep_component x = true /\ pystr.contains sep x = false.

(** A parsed path: the root, when there is one, is the first part, and all
    other parts are clean components. *)
Definition parsed_path (p : PurePath) : Prop :=
  if pystr.nonempty (_root p)
  then exists rest, _parts p = _root p :: rest /\ Forall clean rest
  else Forall clean (_parts p).

(** A rooted path [/d1/.../dn/nm]. *)
Definition under (dcomps : list string) (nm : string) : PurePath :=
  mkPath "/" ("/" :: dcomps ++ [nm]).

(** The block under [if __name__ == "__main__"], with the user's home
    directory, which [Path.home()] reads from the environment, as [home]:
    a public key file is made under it, [bytes] are written to it, and the
    path is printed. *)
Definition main (home : PurePath) : M World unit :=
  let* a := PublicKeyFile [APath (truediv home "something.pub")] in
  PublicKeyFile_write a (OBytes (list_byte_of_string "someshit")) true true >>
  click_echo (str a) false.

(** * Properties *)

(** ** Strings and the path parser *)

Lemma startswith_contains c s :
  pystr.startswith c s = true -> pystr.contains c s = true.
Proof. destruct s as [|a s]; simpl; [discriminate|]. intros ->. reflexivity. Qed.

Lemma startswith_nonempty c s :
  pystr.startswith c s = true -> pystr.nonempty s = true.
Proof. destruct s; simpl; [discriminate | reflexivity]. Qed.

Lemma split_no_sep c s : Forall (fun x => pystr.contains c x = false) (pystr.split c s).
Proof.
  induction s as [|a s IH]; simpl.
  - repeat constructor.
  - destruct (Ascii.eqb a c) eqn:E.
    + constructor; [reflexivity | exact IH].
    + destruct (pystr.split c s) as [|h t].
      * constructor; [simpl; rewrite E; reflexivity | constructor].
      * inversion IH; subst. constructor; [simpl; rewrite E; assumption | assumption].
Qed.

Lemma splitroot_rooted part :
  pystr.startswith sep part = true ->
  pystr.nonempty (fst (splitroot part)) = true.
Proof.
  intros Hs. unfold splitroot. rewrite Hs.
  destruct (_ =? 2)%Z; reflexivity.
Qed.

Lemma splitroot_relative part :
  pystr.startswith sep part = false -> splitroot part = ("", part).
Proof. intros Hs. unfold splitroot. rewrite Hs. reflexivity. Qed.

Lemma splitroot_root_cases part :
  fst (splitroot part) = "" \/ fst (splitroot part) = "/" \/ fst (splitroot part) = "//".
Proof.
  unfold splitroot. destruct (pystr.startswith sep part); [|auto].
  destruct (_ =? 2)%Z; simpl; auto.
Qed.

(** The loop only ever appends to what it has parsed so far. *)
Lemma parse_loop_acc it : forall acc,
  parse_loop it acc = (fst (parse_loop it []), acc ++ snd (parse_loop it [])).
Proof.
  induction it as [|part it IH]; intros acc; simpl.
  - rewrite app_nil_r. reflexivity.
  - destruct (pystr.nonempty part); simpl; [|apply IH].
    destruct (splitroot part) as [root rel].
    destruct (pystr.nonempty root).
    + simpl. destruct (pystr.contains sep rel); [reflexivity|].
      destruct (keep_component rel); [reflexivity|]. rewrite app_nil_r. reflexivity.
    + rewrite IH.
      rewrite (IH (if pystr.contains sep rel then _ else _)).
      simpl. f_equal.
      destruct (pystr.contains sep rel); [rewrite app_assoc; reflexivity|].
      destruct (keep_component rel); [rewrite app_assoc; reflexivity|].
      reflexivity.
Qed.

(** Clean components pass through the loop unchanged. *)
Lemma parse_loop_clean_prefix l : forall rest acc,
  Forall clean l ->
  parse_loop (l ++ rest) acc = parse_loop rest (acc ++ l).
Proof.
  induction l as [|x l IH]; intros rest acc Hl; simpl.
  - rewrite app_nil_r. reflexivity.
  - inversion Hl as [|? ? [Hk Hc] Hl']; subst.
    assert (Hne : pystr.nonempty x = true).
    { unfold keep_component in Hk. destruct (pystr.nonempty x); [reflexivity|discriminate]. }
    rewrite Hne. simpl.
    assert (Hs : pystr.startswith sep x = false).
    { destruct (pystr.startswith sep x) eqn:E; [|reflexivity].
      apply startswith_contains in E. congruence. }
    rewrite (splitroot_relative _ Hs). rewrite Hc, Hk. simpl.
    rewrite IH by assumption. rewrite <- app_assoc. reflexivity.
Qed.

(** The loop returns one of the three roots. *)
Lemma parse_loop_root it : forall acc,
  let r := fst (parse_loop it acc) in r = "" \/ r = "/" \/ r = "//".
Proof.
  induction it as [|part it IH]; intros acc; simpl; [auto|].
  destruct (pystr.nonempty part); simpl; [|apply IH].
  pose proof (splitroot_root_cases part) as Hr.
  destruct (splitroot part) as [root rel]. simpl in Hr.
  destruct (pystr.nonempty root) eqn:E; [simpl; exact Hr | apply IH].
Qed.

(** Everything the loop appends is a clean component. *)
Lemma parse_loop_clean it : Forall clean (snd (parse_loop it [])).
Proof.
  induction it as [|part it IH]; simpl; [constructor|].
  destruct (pystr.nonempty part); simpl; [|exact IH].
  destruct (splitroot part) as [root rel].
  assert (Hnew : Forall clean
            (if pystr.contains sep rel
             then [] ++ filter (fun x => Is_true (keep_component x))
                               (rev (pystr.split sep rel))
             else if keep_component rel then [] ++ [rel] else [])).
  { destruct (pystr.contains sep rel) eqn:Ec.
    - simpl. apply Forall_forall. intros x Hx.
      apply list_elem_of_filter in Hx. destruct Hx as [Hk Hx].
      split; [apply Is_true_true; exact Hk|].
      pose proof (split_no_sep sep rel) as Hall.
      rewrite Forall_forall in Hall. apply Hall.
      apply (proj1 (list_elem_of_In _ _)) in Hx.
      apply (proj2 (list_elem_of_In _ _)). apply in_rev. exact Hx.
    - destruct (keep_component rel) eqn:Ek; simpl; [|constructor].
      constructor; [split; assumption | constructor]. }
  destruct (pystr.nonempty root); [exact Hnew|].
  rewrite parse_loop_acc. simpl. apply Forall_app. split; assumption.
Qed.

Lemma parse_parts_parsed parts : parsed_path (parse_parts parts).
Proof.
  unfold parse_parts, parsed_path.
  pose proof (parse_loop_clean (rev parts)) as Hc.
  destruct (parse_loop (rev parts) []) as [root parsed]. simpl in Hc.
  destruct (pystr.nonempty root) eqn:E; simpl; rewrite E.
  - exists (rev parsed). rewrite rev_app_distr. simpl. split; [reflexivity|].
    apply Forall_rev. exact Hc.
  - apply Forall_rev. exact Hc.
Qed.

(** A list of parts that ends in a rooted string parses to a rooted path. *)
Lemma parse_loop_rooted l : forall c acc,
  pystr.startswith sep c = true ->
  pystr.nonempty (fst (parse_loop (l ++ [c]) acc)) = true.
Proof.
  induction l as [|x l IH]; intros c acc Hc; simpl.
  - rewrite (startswith_nonempty _ _ Hc). simpl.
    pose proof (splitroot_rooted _ Hc) as Hr.
    destruct (splitroot c) as [root rel]. simpl in Hr. rewrite Hr. exact Hr.
  - destruct (pystr.nonempty x); simpl; [|apply IH; exact Hc].
    destruct (splitroot x) as [root rel].
    destruct (pystr.nonempty root) eqn:E; [exact E | apply IH; exact Hc].
Qed.

(** Parsing the parts of a parsed path gives the path back. *)
Lemma parse_parts_fixed p :
  parsed_path p ->
  _root p = "" \/ _root p = "/" \/ _root p = "//" ->
  parse_parts (_parts p) = p.
Proof.
  destruct p as [root parts]. unfold parsed_path. cbn [_root _parts].
  intros Hp [-> | [-> | ->]]; cbn [pystr.nonempty] in Hp.
  - unfold parse_parts.
    rewrite <- (app_nil_r (rev parts)).
    rewrite parse_loop_clean_prefix by (apply Forall_rev; exact Hp).
    simpl. rewrite rev_involutive. reflexivity.
  - destruct Hp as [rest [-> Hrest]]. unfold parse_parts. simpl rev.
    rewrite parse_loop_clean_prefix by (apply Forall_rev; exact Hrest).
    simpl. rewrite rev_app_distr, rev_involutive. reflexivity.
  - destruct Hp as [rest [-> Hrest]]. unfold parse_parts. simpl rev.
    rewrite parse_loop_clean_prefix by (apply Forall_rev; exact Hrest).
    simpl. rewrite rev_app_distr, rev_involutive. reflexivity.
Qed.

Lemma parse_parts_root parts :
  let r := _root (parse_parts parts) in r = "" \/ r = "/" \/ r = "//".
Proof.
  unfold parse_parts.
  pose proof (parse_loop_root (rev parts) []) as Hr.
  destruct (parse_loop (rev parts) []) as [root parsed]. exact Hr.
Qed.

(** What the parser returns is a fixed point of the parser. *)
Lemma parse_parts_idempotent parts :
  parse_parts (_parts (parse_parts parts)) = parse_parts parts.
Proof.
  apply parse_parts_fixed; [apply parse_parts_parsed | apply parse_parts_root].
Qed.

Lemma fixed_is_parsed p :
  parse_parts (_parts p) = p ->
  parsed_path p /\ (_root p = "" \/ _root p = "/" \/ _root p = "//").
Proof.
  intros Hp. rewrite <- Hp. split; [apply parse_parts_parsed | apply parse_parts_root].
Qed.

(** A string that does not start with a separator parses to a relative
    path. *)
Lemma parse_relative_string key :
  pystr.startswith sep key = false -> _root (_parse_args [AStr key]) = "".
Proof.
  intros Hk. unfold _parse_args, parse_parts. simpl.
  destruct (pystr.nonempty key); simpl; [|reflexivity].
  rewrite (splitroot_relative _ Hk). simpl.
  destruct (pystr.contains sep key); [|destruct (keep_component key)]; reflexivity.
Qed.

Lemma parse_rooted_string key :
  pystr.startswith sep key = true ->
  pystr.nonempty (_root (_parse_args [AStr key])) = true.
Proof.
  intros Hk. unfold _parse_args, parse_parts. simpl rev.
  pose proof (parse_loop_rooted [] key [] Hk) as Hr. simpl app in Hr.
  simpl flat_map. simpl rev.
  destruct (parse_loop [key] []) as [root parsed]. simpl in *. exact Hr.
Qed.

(** Joining a relative parsed path to an absolute parsed path gives a
    parsed path again. *)
Lemma join_relative_fixed p q :
  parse_parts (_parts p) = p -> is_absolute p = true ->
  parse_parts (_parts q) = q -> _root q = "" ->
  parse_parts (_parts p ++ _parts q) = mkPath (_root p) (_parts p ++ _parts q).
Proof.
  intros Hp Habs Hq Hrq.
  destruct (fixed_is_parsed p Hp) as [Hpp Hpr].
  destruct (fixed_is_parsed q Hq) as [Hqp _].
  unfold parsed_path in Hpp, Hqp. unfold is_absolute in Habs.
  rewrite Habs in Hpp. rewrite Hrq in Hqp. cbn [pystr.nonempty] in Hqp.
  destruct Hpp as [rest [Hparts Hrest]].
  apply (parse_parts_fixed (mkPath (_root p) (_parts p ++ _parts q))).
  - unfold parsed_path. cbn [_root _parts]. rewrite Habs.
    exists (rest ++ _parts q). split.
    + rewrite Hparts. reflexivity.
    + apply Forall_app. split; assumption.
  - cbn [_root]. exact Hpr.
Qed.

Lemma getcwd_rooted w : pystr.startswith sep (getcwd w) = true.
Proof. reflexivity. Qed.

Lemma flat_map_strings parts :
  flat_map (fun a => match a with
                     | AStr s => [s]
                     | APath p => _parts p
                     end) (map AStr parts) = parts.
Proof. induction parts as [|x parts IH]; simpl; [reflexivity | rewrite IH; reflexivity]. Qed.

(** [_from_parts([cwd] + parts)] parses the parts of [cwd] followed by
    [parts]. *)
Lemma parse_args_cwd c parts :
  _parse_args (APath c :: map AStr parts) = parse_parts (_parts c ++ parts).
Proof. unfold _parse_args. simpl flat_map. rewrite flat_map_strings. reflexivity. Qed.

(** The path of the working directory is a parsed, absolute path. *)
Lemma cwd_path_fixed w :
  parse_parts (_parts (_parse_args [AStr (getcwd w)])) = _parse_args [AStr (getcwd w)]
  /\ is_absolute (_parse_args [AStr (getcwd w)]) = true.
Proof.
  split.
  - exact (parse_parts_idempotent [getcwd w]).
  - apply parse_rooted_string, getcwd_rooted.
Qed.

Lemma relative_root p : is_absolute p = false -> _root p = "".
Proof. unfold is_absolute. destruct (_root p); [reflexivity | discriminate]. Qed.

Lemma absolute_is_absolute c p :
  parse_parts (_parts c) = c -> is_absolute c = true ->
  is_absolute (absolute c p) = true.
Proof.
  intros Hc Habs. unfold absolute.
  destruct (is_absolute p) eqn:E; [exact E|].
  rewrite parse_args_cwd.
  destruct (fixed_is_parsed c Hc) as [Hpp Hroot].
  unfold parsed_path in Hpp. unfold is_absolute in Habs. rewrite Habs in Hpp.
  destruct Hpp as [rest [Hparts _]].
  assert (Hs : pystr.startswith sep (_root c) = true).
  { destruct Hroot as [Hr | [Hr | Hr]]; rewrite Hr in *; [discriminate | | ];
      reflexivity. }
  unfold is_absolute, parse_parts. rewrite Hparts.
  change ((_root c :: rest) ++ _parts p) with (_root c :: (rest ++ _parts p)).
  simpl rev.
  pose proof (parse_loop_rooted (rev (rest ++ _parts p)) (_root c) [] Hs) as Hr.
  destruct (parse_loop (rev (rest ++ _parts p) ++ [_root c]) []) as [root parsed].
  simpl in *. exact Hr.
Qed.

(** Making a relative parsed path absolute puts the parts of the working
    directory in front of its own. *)
Lemma absolute_relative c p :
  parse_parts (_parts c) = c -> is_absolute c = true ->
  parsed_path p -> is_absolute p = false ->
  absolute c p = mkPath (_root c) (_parts c ++ _parts p).
Proof.
  intros Hc Habs Hp Hrel. unfold absolute. rewrite Hrel, parse_args_cwd.
  pose proof (relative_root p Hrel) as Hroot.
  apply join_relative_fixed; try assumption.
  apply parse_parts_fixed; [exact Hp | left; exact Hroot].
Qed.

(** ** Construction *)

(** Calling a file class on arguments that give an absolute path: the
    path is kept and checked. *)
Lemma construct_absolute init args w :
  is_absolute (_parse_args args) = true ->
  construct init args w =
  (match init (_parse_args args) with
   | Return _ => Return (_parse_args args)
   | Raise e => Raise e
   end, w).
Proof.
  intros Habs. unfold construct, File_new, bind, ret, lift_outcome.
  rewrite Habs. destruct (init _); reflexivity.
Qed.

(** Calling a file class on arguments that give a relative path: the
    working directory is checked first, then the path made absolute. *)
Lemma construct_relative init args w :
  is_absolute (_parse_args args) = false ->
  construct init args w =
  (match init (_parse_args [AStr (getcwd w)]) with
   | Raise e => Raise e
   | Return _ =>
       match init (absolute (_parse_args [AStr (getcwd w)]) (_parse_args args)) with
       | Return _ =>
           Return (absolute (_parse_args [AStr (getcwd w)]) (_parse_args args))
       | Raise e => Raise e
       end
   end, w).
Proof.
  intros Hrel.
  unfold construct, File_new, Path_cwd, bind, gets, ret, lift_outcome.
  rewrite Hrel.
  destruct (init (_parse_args [AStr (getcwd w)])) as [[]|e]; [|reflexivity].
  destruct (init (absolute _ _)); reflexivity.
Qed.

(** The call depends on its arguments through the path they parse to. *)
Lemma construct_congr init args args' w :
  _parse_args args = _parse_args args' ->
  construct init args w = construct init args' w.
Proof.
  intros Heq. unfold construct, File_new. rewrite Heq. reflexivity.
Qed.

(** What a constructor returns is a parsed, absolute path, and nothing in
    the world has changed; a relative argument has passed the check on the
    working directory and got its parts in front. *)
Lemma construct_returns init args w w' p :
  construct init args w = (Return p, w') ->
  w' = w /\ init p = Return tt
  /\ parse_parts (_parts p) = p /\ is_absolute p = true
  /\ (is_absolute (_parse_args args) = false ->
      init (_parse_args [AStr (getcwd w)]) = Return tt
      /\ _parts p = _parts (_parse_args [AStr (getcwd w)])
                    ++ _parts (_parse_args args)).
Proof.
  destruct (cwd_path_fixed w) as [Hc Hcabs].
  destruct (is_absolute (_parse_args args)) eqn:Habs.
  - rewrite (construct_absolute _ _ _ Habs).
    destruct (init (_parse_args args)) as [[]|e] eqn:Ei; intros E; inversion E;
      subst.
    repeat split; try assumption; try discriminate.
    exact (parse_parts_idempotent _).
  - rewrite (construct_relative _ _ _ Habs).
    destruct (init (_parse_args [AStr (getcwd w)])) as [[]|e] eqn:Ec;
      [|intros E; inversion E].
    destruct (init (absolute _ _)) as [[]|e] eqn:Ei; intros E; inversion E; subst.
    assert (Hq : parsed_path (_parse_args args)) by apply parse_parts_parsed.
    split; [reflexivity|]. split; [exact Ei|].
    rewrite (absolute_relative _ _ Hc Hcabs Hq Habs) in *.
    split; [|split].
    + apply parse_parts_fixed.
      * destruct (fixed_is_parsed _ Hc) as [Hpp _].
        unfold parsed_path in *. cbn [_root _parts].
        unfold is_absolute in Hcabs, Habs. rewrite Hcabs in *.
        rewrite Habs in Hq. destruct Hpp as [rest [Hparts Hrest]].
        exists (rest ++ _parts (_parse_args args)). split.
        -- rewrite Hparts. reflexivity.
        -- apply Forall_app. split; assumption.
      * cbn [_root]. destruct (fixed_is_parsed _ Hc) as [_ Hr]. exact Hr.
    + exact Hcabs.
    + intros _. split; reflexivity.
Qed.

Lemma PublicKeyFile_init_refuses p :
  String.eqb (suffix p) ".pub" = false -> PublicKeyFile_init p = Raise InvalidFilenameErr.
Proof. intros Hs. unfold PublicKeyFile_init, PUBKEY_FILE_EXT. rewrite Hs. reflexivity. Qed.

Lemma SecretKeyFile_init_refuses p :
  String.eqb (suffix p) ".enc" = false -> SecretKeyFile_init p = Raise InvalidFilenameErr.
Proof. intros Hs. unfold SecretKeyFile_init, SECKEY_FILE_EXT. rewrite Hs. reflexivity. Qed.

Lemma PasswdFile_init_refuses p :
  String.eqb (suffix p) ".enc" = false -> PasswdFile_init p = Raise InvalidFilenameErr.
Proof.
  intros Hs. unfold PasswdFile_init, is_None, PASSWD_FILE_EXT. rewrite Hs. reflexivity.
Qed.

(** A relative argument in a working directory that fails the check of
    the class is refused, whatever the argument's own extension. *)
Lemma construct_relative_refused init args w :
  is_absolute (_parse_args args) = false ->
  init (_parse_args [AStr (getcwd w)]) = Raise InvalidFilenameErr ->
  construct init args w = (Raise InvalidFilenameErr, w).
Proof.
  intros Hrel Hc. rewrite (construct_relative _ _ _ Hrel), Hc. reflexivity.
Qed.

(** C8.  For a path string that is absolute, construction returns the path
    exactly when its suffix is the extension of the class and raises
    InvalidFilenameErr otherwise.  For a relative path string the check
    also runs on the working directory, which [absolute()] builds with the
    class itself: unless the working directory has the extension,
    construction raises InvalidFilenameErr, also for a string with the
    correct extension. *)
Theorem relative_name_with_extension_is_refused (s : string) (w : World) :
  let q := _parse_args [AStr s] in
  let c := _parse_args [AStr (getcwd w)] in
  (is_absolute q = true ->
   PublicKeyFile [AStr s] w =
     (if String.eqb (suffix q) ".pub" then Return q else Raise InvalidFilenameErr, w)
   /\ SecretKeyFile [AStr s] w =
     (if String.eqb (suffix q) ".enc" then Return q else Raise InvalidFilenameErr, w)
   /\ PasswdFile [AStr s] w =
     (if String.eqb (suffix q) ".enc" then Return q else Raise InvalidFilenameErr, w))
  /\ (is_absolute q = false ->
      (String.eqb (suffix c) ".pub" = false ->
       PublicKeyFile [AStr s] w = (Raise InvalidFilenameErr, w))
      /\ (String.eqb (suffix c) ".enc" = false ->
          SecretKeyFile [AStr s] w = (Raise InvalidFilenameErr, w)
          /\ PasswdFile [AStr s] w = (Raise InvalidFilenameErr, w))).
Proof.
  intros q c. split.
  - intros Habs. unfold PublicKeyFile, SecretKeyFile, PasswdFile.
    rewrite !(construct_absolute _ _ _ Habs). fold q.
    unfold PublicKeyFile_init, SecretKeyFile_init, PasswdFile_init, is_None,
      PUBKEY_FILE_EXT, SECKEY_FILE_EXT, PASSWD_FILE_EXT.
    repeat split; destruct (String.eqb (suffix q) _); reflexivity.
  - intros Hrel. split; [|intros Hs; split].
    + intros Hs. apply construct_relative_refused;
        [exact Hrel | apply PublicKeyFile_init_refuses; exact Hs].
    + apply construct_relative_refused;
        [exact Hrel | apply SecretKeyFile_init_refuses; exact Hs].
    + apply construct_relative_refused;
        [exact Hrel | apply PasswdFile_init_refuses; exact Hs].
Qed.

Lemma relative_name_with_extension_is_refused_witness :
  suffix (_parse_args [AStr "alice.pub"]) = ".pub"
  /\ PublicKeyFile [AStr "alice.pub"] demo.store_world
     = (Raise InvalidFilenameErr, demo.store_world)
  /\ PasswdFile [AStr "email.enc"] demo.store_world
     = (Raise InvalidFilenameErr, demo.store_world).
Proof.
  split; [reflexivity|]. split.
  - exact (proj1 (proj2 (relative_name_with_extension_is_refused "alice.pub"
                           demo.store_world) eq_refl) eq_refl).
  - exact (proj2 (proj2 (proj2 (relative_name_with_extension_is_refused
                                  "email.enc" demo.store_world) eq_refl)
                    eq_refl)).
Defined.

(** C10.  A relative argument is not simply anchored at the working
    directory: the three constructors first run their extension check on
    the working directory and raise InvalidFilenameErr when it fails, which
    it does in any directory whose name does not end in the extension.
    Only when a constructor does return is the path absolute, made of the
    parts of the working directory followed by those of the argument, with
    the world unchanged, and what it resolves to afterwards depends on the
    disk alone. *)
Theorem relative_argument_checks_working_directory (args : list arg)
    (w : World) :
  is_absolute (_parse_args args) = false ->
  let c := _parse_args [AStr (getcwd w)] in
  (String.eqb (suffix c) ".pub" = false ->
   PublicKeyFile args w = (Raise InvalidFilenameErr, w))
  /\ (String.eqb (suffix c) ".enc" = false ->
      SecretKeyFile args w = (Raise InvalidFilenameErr, w)
      /\ PasswdFile args w = (Raise InvalidFilenameErr, w))
  /\ (forall p w',
        PublicKeyFile args w = (Return p, w')
        \/ SecretKeyFile args w = (Return p, w')
        \/ PasswdFile args w = (Return p, w') ->
        is_absolute p = true
        /\ w' = w
        /\ _parts p = _parts c ++ _parts (_parse_args args)
        /\ forall w1 w2, w_fs w1 = w_fs w2 ->
                         resolve w1 p = resolve w2 p /\ stat w1 p = stat w2 p).
Proof.
  intros Hrel c. split; [|split].
  - intros Hs. apply construct_relative_refused;
      [exact Hrel | apply PublicKeyFile_init_refuses; exact Hs].
  - intros Hs. split; apply construct_relative_refused;
      try exact Hrel;
      [apply SecretKeyFile_init_refuses | apply PasswdFile_init_refuses];
      exact Hs.
  - intros p w' Hc.
    assert (Hp : w' = w /\ is_absolute p = true
                 /\ _parts p = _parts c ++ _parts (_parse_args args)).
    { destruct Hc as [Hc|[Hc|Hc]];
        destruct (construct_returns _ _ _ _ _ Hc) as [Hw [_ [_ [Habs Hparts]]]];
        destruct (Hparts Hrel) as [_ Hpp]; repeat split; assumption. }
    destruct Hp as [Hw [Habs Hparts]].
    split; [exact Habs|]. split; [exact Hw|]. split; [exact Hparts|].
    intros w1 w2 Hfs.
    assert (Hr : resolve w1 p = resolve w2 p).
    { unfold resolve, components. rewrite Habs, Hfs. reflexivity. }
    split; [exact Hr|]. unfold stat. rewrite Hr, Hfs. reflexivity.
Qed.

Lemma relative_argument_checks_working_directory_witness :
  is_absolute (_parse_args [AStr "keys/alice.pub"]) = false
  /\ PublicKeyFile [AStr "keys/alice.pub"] demo.store_world
     = (Raise InvalidFilenameErr, demo.store_world).
Proof.
  split; [reflexivity|].
  exact (proj1 (relative_argument_checks_working_directory
                  [AStr "keys/alice.pub"] demo.store_world eq_refl) eq_refl).
Defined.

(** C1.  The code does no sanitising: for the service names [../x] and
    [a/../../x] under the store [/s] the parent-directory segments stay in
    the path, the path stripped of its extension differs from [/s/x], and
    the first one resolves to [/x.enc], outside the store. *)
Theorem from_service_name_keeps_parent_segments :
  from_service_name "../x" demo.store demo.store_world =
    (Return (mkPath "/" ["/"; "s"; ".."; "x.enc"]), demo.store_world)
  /\ with_suffix (mkPath "/" ["/"; "s"; ".."; "x.enc"]) "" =
       Return (mkPath "/" ["/"; "s"; ".."; "x"])
  /\ pathlib.eqb (mkPath "/" ["/"; "s"; ".."; "x"]) (truediv demo.store "x") = false
  /\ resolve demo.store_world (mkPath "/" ["/"; "s"; ".."; "x.enc"]) = inr ["x.enc"]
  /\ from_service_name "a/../../x" demo.store demo.store_world =
       (Return (mkPath "/" ["/"; "s"; "a"; ".."; ".."; "x.enc"]), demo.store_world)
  /\ truediv demo.store "x" = mkPath "/" ["/"; "s"; "x"].
Proof. repeat split; vm_compute; reflexivity. Qed.

(** ** The file system *)

Lemma walk_app m comps1 : forall cur comps2,
  walk m cur (comps1 ++ comps2) =
  match walk m cur comps1 with
  | inr k => walk m k comps2
  | inl e => inl e
  end.
Proof.
  induction comps1 as [|c comps1 IH]; intros cur comps2; simpl; [reflexivity|].
  destruct (lookup_node m cur) as [[d|]|]; try reflexivity.
  destruct (String.eqb c ".."); apply IH.
Qed.

Lemma lookup_node_insert_ne m k k' n :
  k <> k' -> lookup_node (<[k:=n]> m) k' = lookup_node m k'.
Proof.
  intros Hne. destruct k' as [|x k']; [reflexivity|].
  simpl. apply lookup_insert_ne. exact Hne.
Qed.

Lemma lookup_node_insert_eq m k n :
  k <> [] -> lookup_node (<[k:=n]> m) k = Some n.
Proof.
  intros Hne. destruct k as [|x k]; [contradiction|].
  simpl. apply lookup_insert_eq.
Qed.

(** Putting something where there was no directory does not disturb a
    resolution that went through. *)
Lemma walk_insert m k n comps : forall cur k',
  lookup_node m k <> Some NDir ->
  walk m cur comps = inr k' ->
  walk (<[k:=n]> m) cur comps = inr k'.
Proof.
  induction comps as [|c comps IH]; intros cur k' Hk Hw; simpl in *; [exact Hw|].
  destruct (lookup_node m cur) as [[d|]|] eqn:E; try discriminate.
  assert (Hne : k <> cur) by (intros ->; congruence).
  rewrite (lookup_node_insert_ne _ _ _ _ Hne), E.
  destruct (String.eqb c ".."); apply IH; assumption.
Qed.

Lemma write_file_eq self data w :
  write_file self data w =
  match resolve w self with
  | inl e => (Raise (exn_of_errno e), w)
  | inr k => match lookup_node (w_fs w) k with
             | Some NDir => (Raise IsADirectoryError, w)
             | _ => (Return tt, set_fs (insert k (NFile data)) w)
             end
  end.
Proof. reflexivity. Qed.

Lemma resolve_set_fs_insert self w k k' n :
  lookup_node (w_fs w) k <> Some NDir ->
  resolve w self = inr k' ->
  resolve (set_fs (insert k n) w) self = inr k'.
Proof.
  unfold resolve, components. simpl. intros Hk Hr.
  apply walk_insert; assumption.
Qed.

(** Opening for writing and writing [data]: one file is put at the place
    the path resolves to, unless that place is a directory. *)
Lemma with_open_wb_ret self data w k :
  resolve w self = inr k ->
  lookup_node (w_fs w) k <> Some NDir ->
  with_open_wb self (ret data) w =
  (Return tt, set_fs (insert k (NFile data)) w).
Proof.
  intros Hr Hk.
  assert (Hne : k <> []) by (intros ->; apply Hk; reflexivity).
  pose proof (resolve_set_fs_insert self w k k (NFile []) Hk Hr) as Hr'.
  unfold with_open_wb, bind, ret.
  rewrite write_file_eq, Hr.
  destruct (lookup_node (w_fs w) k) as [[d|]|] eqn:E; try congruence.
  all: rewrite write_file_eq; rewrite Hr';
    simpl w_fs; rewrite (lookup_node_insert_eq _ _ _ Hne);
    unfold set_fs; simpl; rewrite insert_insert_eq; reflexivity.
Qed.

Lemma with_open_wb_unresolved self (data : M World bytes) w e :
  resolve w self = inl e ->
  with_open_wb self data w = (Raise (exn_of_errno e), w).
Proof.
  intros Hr. unfold with_open_wb, bind. rewrite write_file_eq, Hr. reflexivity.
Qed.

(** After a write the file is there, with the bytes written. *)
Lemma stat_after_write self data w k :
  resolve w self = inr k ->
  lookup_node (w_fs w) k <> Some NDir ->
  stat (set_fs (insert k (NFile data)) w) self = inr (NFile data).
Proof.
  intros Hr Hk.
  assert (Hne : k <> []) by (intros ->; apply Hk; reflexivity).
  unfold stat. rewrite (resolve_set_fs_insert self w k k _ Hk Hr).
  simpl w_fs. rewrite (lookup_node_insert_eq _ _ _ Hne). reflexivity.
Qed.

Lemma Path_exists_eq self w :
  Path_exists self w =
  (Return (match stat w self with inr _ => true | inl _ => false end), w).
Proof. reflexivity. Qed.

Lemma read_file_eq self w :
  read_file self w =
  match stat w self with
  | inl e => (Raise (exn_of_errno e), w)
  | inr NDir => (Raise IsADirectoryError, w)
  | inr (NFile d) => (Return d, w)
  end.
Proof. reflexivity. Qed.

Section Properties.
Context `{Crypto}.

(** ** PasswdFile *)

(** What a call of a provider looks like in the trace. *)
Lemma py_call_is_traced (g : World -> outcome pyobj * World) (w : World) :
  py_call (OCallable g) w = g (log Invoke w).
Proof. reflexivity. Qed.

(** C2.  When the password file does not exist, retrieve_passwd raises
    FileNotFoundError and leaves the world as it was, whatever was passed
    for the key, so a provider passed there has not been called; and in
    no world does the call add an event to the trace, so no call of the
    provider is ever made where the file is missing. *)
Theorem retrieve_passwd_missing_file (self : PurePath)
    (get_private_key : pyobj) (w : World) :
  Path_exists self w = (Return false, w) ->
  retrieve_passwd self get_private_key w = (Raise FileNotFoundError, w)
  /\ ~ In Invoke (skipn (length (w_trace w))
                    (w_trace (snd (retrieve_passwd self get_private_key w))))
  /\ forall w0, w_trace (snd (retrieve_passwd self get_private_key w0))
                = w_trace w0.
Proof.
  intros Hex.
  assert (Hstep : retrieve_passwd self get_private_key w
                  = (Raise FileNotFoundError, w)).
  { unfold retrieve_passwd, bind. rewrite Hex. reflexivity. }
  split; [exact Hstep|]. split.
  - rewrite Hstep. simpl. rewrite skipn_all. intros [].
  - intros w0. unfold retrieve_passwd, bind, raise, ret, lift_outcome.
    rewrite Path_exists_eq.
    destruct (stat w0 self) as [e|[d|]] eqn:Est; cbn [negb];
      rewrite ?read_file_eq, ?Est; try reflexivity.
    destruct (nacl.SealedBox_init get_private_key); [|reflexivity].
    destruct (nacl.decrypt _ _); [|reflexivity].
    destruct (utf8_decode _); reflexivity.
Qed.

(** C4.  When the path of a password file already exists, write_passwd
    raises PasswdFileExistsErr and the world, in particular the bytes
    stored at the path, is what it was before. *)
Theorem write_passwd_existing_file (self : PurePath) (passwd : string)
    (public_key : pyobj) (w : World) :
  Path_exists self w = (Return true, w) ->
  write_passwd self passwd public_key w = (Raise PasswdFileExistsErr, w)
  /\ read_file self (snd (write_passwd self passwd public_key w))
     = read_file self w.
Proof.
  intros Hex.
  assert (Hstep : write_passwd self passwd public_key w
                  = (Raise PasswdFileExistsErr, w)).
  { unfold write_passwd, bind. rewrite Hex. reflexivity. }
  split; [exact Hstep | rewrite Hstep; reflexivity].
Qed.

(** C5.  Given a provider, that is a callable, where the existing
    password file is to be decrypted, retrieve_passwd hands the callable
    itself to SealedBox and raises TypeError; it returns no password. *)
Theorem retrieve_passwd_with_provider (self : PurePath)
    (provider : World -> outcome pyobj * World) (w : World) (data : bytes) :
  stat w self = inr (NFile data) ->
  retrieve_passwd self (OCallable provider) w = (Raise TypeError, w).
Proof.
  intros Hst. unfold retrieve_passwd, bind, ret, lift_outcome.
  rewrite Path_exists_eq, Hst. cbn [negb].
  rewrite read_file_eq, Hst. reflexivity.
Qed.

End Properties.

(** C3.  A PasswdFile has no attribute [alias]: neither the class, nor
    [File], nor [pathlib] defines one, so [pass_file.alias(dest)] raises
    AttributeError, whether the password file exists or not, and the world
    is left untouched. *)
Theorem alias_is_not_defined (self : PurePath) (w : World) :
  PasswdFile_getattr self "alias" w = (Raise AttributeError, w).
Proof. reflexivity. Qed.

#[local] Existing Instance demo.crypto.

Lemma retrieve_passwd_missing_file_witness :
  Path_exists demo.email demo.store_world = (Return false, demo.store_world)
  /\ retrieve_passwd demo.email demo.failing_provider demo.store_world
     = (Raise FileNotFoundError, demo.store_world).
Proof.
  assert (Hex : Path_exists demo.email demo.store_world
                = (Return false, demo.store_world)) by reflexivity.
  split; [exact Hex|].
  exact (proj1 (retrieve_passwd_missing_file demo.email demo.failing_provider
                  demo.store_world Hex)).
Defined.

Lemma write_passwd_existing_file_witness :
  Path_exists demo.email demo.written_world = (Return true, demo.written_world)
  /\ write_passwd demo.email "other" (OPublicKey demo.public_key) demo.written_world
     = (Raise PasswdFileExistsErr, demo.written_world).
Proof.
  assert (Hex : Path_exists demo.email demo.written_world
                = (Return true, demo.written_world)) by reflexivity.
  split; [exact Hex|].
  exact (proj1 (write_passwd_existing_file demo.email "other"
                  (OPublicKey demo.public_key) demo.written_world Hex)).
Defined.

Lemma retrieve_passwd_with_provider_witness :
  stat demo.written_world demo.email
    = inr (NFile (demo.public_key ++ list_byte_of_string "hunter2"))
  /\ retrieve_passwd demo.email demo.provider demo.written_world
     = (Raise TypeError, demo.written_world).
Proof.
  assert (Hst : stat demo.written_world demo.email
            = inr (NFile (demo.public_key ++ list_byte_of_string "hunter2")))
    by reflexivity.
  split; [exact Hst|].
  exact (retrieve_passwd_with_provider demo.email _ demo.written_world _ Hst).
Defined.

(** With the private key itself in place of a provider the password comes
    back, for any sealed box that opens what it sealed and any codec that
    decodes what it encoded. *)
Section RoundTrip.
Context `{Crypto}.
Hypothesis seal_open_seal : forall r m sk,
  crypto_box_seal_open (crypto_box_seal r m (crypto_scalarmult_base sk))
    (crypto_scalarmult_base sk) sk = Some m.
Hypothesis decode_encode : forall s b,
  utf8_encode s = Return b -> utf8_decode b = Return s.

Lemma write_passwd_then_retrieve_with_key self passwd sk w :
  fst (write_passwd self passwd (OPublicKey (crypto_scalarmult_base sk)) w)
    = Return tt ->
  let w' := snd (write_passwd self passwd
                   (OPublicKey (crypto_scalarmult_base sk)) w) in
  retrieve_passwd self (OPrivateKey sk) w' = (Return passwd, w').
Proof.
  unfold write_passwd, bind, raise, ret, lift_outcome.
  rewrite Path_exists_eq.
  destruct (stat w self) as [e|n] eqn:Est; [|simpl; discriminate].
  cbn [nacl.SealedBox_init].
  destruct (utf8_encode passwd) as [plain|] eqn:Eenc; [|simpl; discriminate].
  unfold nacl.encrypt, bind, draw, ret. cbn [nacl._public_key].
  set (w1 := set_seed (N.succ (w_seed w)) w).
  set (c := crypto_box_seal (w_seed w) plain (crypto_scalarmult_base sk)).
  destruct (resolve w1 self) as [e'|k] eqn:Er.
  { rewrite (with_open_wb_unresolved _ _ _ _ Er). simpl. discriminate. }
  destruct (lookup_node (w_fs w1) k) as [[d|]|] eqn:El.
  2: { unfold with_open_wb, bind. rewrite write_file_eq, Er, El.
       simpl. discriminate. }
  all: assert (Hk : lookup_node (w_fs w1) k <> Some NDir) by congruence;
    pose proof (with_open_wb_ret self c w1 k Er Hk) as Hw;
    unfold ret in Hw; rewrite Hw; simpl; intros _;
    unfold retrieve_passwd, bind, raise, lift_outcome;
    rewrite Path_exists_eq, (stat_after_write _ _ _ _ Er Hk);
    cbn [negb]; unfold ret at 1;
    rewrite read_file_eq, (stat_after_write _ _ _ _ Er Hk);
    cbn [nacl.SealedBox_init]; unfold nacl.decrypt;
    cbn [nacl._private_key nacl._public_key]; unfold c;
    rewrite seal_open_seal, (decode_encode _ _ Eenc); reflexivity.
Qed.

End RoundTrip.

(** ** PublicKeyFile *)

(** C6, as stated, fails: with no file at [/s/alice.pub], retrieve does not
    raise an error of the not-found kind. *)
Lemma PublicKeyFile_retrieve_missing_raises_no_error :
  Path_exists demo.alice_pub demo.store_world = (Return false, demo.store_world)
  /\ ~ (exists e w', PublicKeyFile_retrieve demo.alice_pub demo.store_world
                     = (Raise e, w')
                     /\ not_found_error e = true).
Proof.
  split; [reflexivity|].
  intros [e [w' [Hr He]]].
  assert (Hfst : fst (PublicKeyFile_retrieve demo.alice_pub demo.store_world)
                 = Raise (SystemExit 0)) by reflexivity.
  rewrite Hr in Hfst. simpl in Hfst. inversion Hfst; subst e.
  simpl in He. discriminate.
Qed.

(** C6, amended.  When the path does not exist, retrieve writes
    [public key does not exist in <path>!] to stderr and ends the process
    through [exit(0)], that is SystemExit with status 0; when the path is a
    file, retrieve returns [PublicKey] of the stored bytes, the key when
    there are 32 of them, and changes nothing. *)
Theorem PublicKeyFile_retrieve_outcome (self : PurePath) (w : World) :
  (Path_exists self w = (Return false, w) ->
   PublicKeyFile_retrieve self w =
   (Raise (SystemExit 0),
    log (Echo true ("public key does not exist in " +:+ str self +:+ "!")) w))
  /\ (forall raw, stat w self = inr (NFile raw) ->
      PublicKeyFile_retrieve self w = (nacl.PublicKey raw, w)
      /\ (length raw = nacl.SIZE ->
          PublicKeyFile_retrieve self w = (Return (OPublicKey raw), w))).
Proof.
  split.
  - intros Hex. unfold PublicKeyFile_retrieve, bind. rewrite Hex. reflexivity.
  - intros raw Hst.
    assert (Hr : PublicKeyFile_retrieve self w = (nacl.PublicKey raw, w)).
    { unfold PublicKeyFile_retrieve, bind, lift_outcome.
      rewrite Path_exists_eq, Hst. cbn [negb]. unfold ret at 1.
      rewrite read_file_eq, Hst. destruct (nacl.PublicKey raw); reflexivity. }
    split; [exact Hr|]. intros Hlen. rewrite Hr. unfold nacl.PublicKey.
    rewrite Hlen, Nat.eqb_refl. reflexivity.
Qed.

Lemma PublicKeyFile_retrieve_outcome_witness :
  Path_exists demo.alice_pub demo.store_world = (Return false, demo.store_world)
  /\ fst (PublicKeyFile_retrieve demo.alice_pub demo.store_world)
     = Raise (SystemExit 0).
Proof.
  assert (Hex : Path_exists demo.alice_pub demo.store_world
                = (Return false, demo.store_world)) by reflexivity.
  split; [exact Hex|].
  rewrite (proj1 (PublicKeyFile_retrieve_outcome demo.alice_pub demo.store_world)
             Hex).
  reflexivity.
Defined.

(** ** Parent directories *)

Lemma Path_mkdir_missing_ancestor p w :
  resolve w p = inl ENOENT ->
  Path_mkdir p true w = (Raise FileNotFoundError, w).
Proof.
  intros Hr. unfold Path_mkdir, try_except, os_mkdir. rewrite Hr. reflexivity.
Qed.

Lemma Path_mkdir_creates p w k :
  resolve w p = inr k -> lookup_node (w_fs w) k = None ->
  Path_mkdir p true w = (Return tt, set_fs (insert k NDir) w).
Proof.
  intros Hr Hl. unfold Path_mkdir, try_except, os_mkdir. rewrite Hr, Hl.
  reflexivity.
Qed.

Lemma Path_mkdir_existing p w k :
  resolve w p = inr k -> lookup_node (w_fs w) k = Some NDir ->
  Path_mkdir p true w = (Return tt, w).
Proof.
  intros Hr Hl. unfold Path_mkdir, try_except, os_mkdir. rewrite Hr, Hl.
  unfold bind, Path_is_dir, gets, stat. rewrite Hr, Hl. reflexivity.
Qed.

Lemma parent_under dcomps nm : parent (under dcomps nm) = mkPath "/" ("/" :: dcomps).
Proof.
  unfold parent, under. cbn [_parts _root].
  replace (length ("/" :: dcomps ++ [nm]) =? 1)%nat with false.
  - cbn [andb]. change ("/" :: dcomps ++ [nm]) with (("/" :: dcomps) ++ [nm]).
    rewrite removelast_last. reflexivity.
  - symmetry. apply Nat.eqb_neq. simpl. rewrite length_app. simpl. lia.
Qed.

Lemma resolve_under dcomps nm w :
  resolve w (under dcomps nm) =
  match walk (w_fs w) [] dcomps with
  | inr k => walk (w_fs w) k [nm]
  | inl e => inl e
  end.
Proof. unfold resolve, components, under. simpl. apply walk_app. Qed.

Lemma resolve_parent_under dcomps nm w :
  resolve w (parent (under dcomps nm)) = walk (w_fs w) [] dcomps.
Proof. rewrite parent_under. reflexivity. Qed.

(** The two steps that both write methods share, when an ancestor of the
    parent directory is missing. *)
Lemma mkdir_parent_missing_ancestor dcomps nm w :
  walk (w_fs w) [] dcomps = inl ENOENT ->
  stat w (under dcomps nm) = inl ENOENT
  /\ Path_mkdir (parent (under dcomps nm)) true w = (Raise FileNotFoundError, w).
Proof.
  intros Hw. split.
  - unfold stat. rewrite resolve_under, Hw. reflexivity.
  - apply Path_mkdir_missing_ancestor. rewrite resolve_parent_under. exact Hw.
Qed.

(** The same two steps when only the parent directory itself is missing. *)
Lemma mkdir_parent_then_write dcomps nm w kd data :
  walk (w_fs w) [] dcomps = inr kd ->
  lookup_node (w_fs w) kd = None ->
  lookup_node (w_fs w) (kd ++ [nm]) = None ->
  nm <> ".." ->
  stat w (under dcomps nm) = inl ENOENT
  /\ Path_mkdir (parent (under dcomps nm)) true w
     = (Return tt, set_fs (insert kd NDir) w)
  /\ with_open_wb (under dcomps nm) (ret data) (set_fs (insert kd NDir) w)
     = (Return tt,
        set_fs (insert (kd ++ [nm]) (NFile data)) (set_fs (insert kd NDir) w)).
Proof.
  intros Hw Hkd Hnm Hdots.
  assert (Hne : kd <> []) by (intros ->; simpl in Hkd; discriminate).
  assert (Hnm' : String.eqb nm ".." = false) by (apply String.eqb_neq; exact Hdots).
  split; [|split].
  - unfold stat. rewrite resolve_under, Hw. simpl. rewrite Hkd. reflexivity.
  - apply Path_mkdir_creates; [rewrite resolve_parent_under; exact Hw | exact Hkd].
  - apply with_open_wb_ret.
    + rewrite resolve_under. simpl w_fs.
      rewrite (walk_insert _ kd NDir dcomps [] kd) by (congruence || assumption).
      simpl. rewrite (lookup_node_insert_eq _ _ _ Hne), Hnm'. reflexivity.
    + simpl w_fs. rewrite lookup_node_insert_ne.
      * rewrite Hnm. discriminate.
      * intros Heq. apply (f_equal (@length string)) in Heq.
        rewrite length_app in Heq. simpl in Heq. lia.
Qed.

(** ** The memoized container of a SecretKeyFile *)

Section Cache.
Context `{Crypto}.

Lemma encrypted_file_bytes_body_cases self w :
  (exists raw c, stat w self = inr (NFile raw)
     /\ PassEncryptedMessage_from_bytes raw = Return c
     /\ encrypted_file_bytes_body self w = (Return c, w))
  \/ (exists e w', encrypted_file_bytes_body self w = (Raise e, w')
        /\ w_fs w' = w_fs w /\ w_cwd w' = w_cwd w).
Proof.
  unfold encrypted_file_bytes_body, bind, lift_outcome.
  rewrite Path_exists_eq.
  destruct (stat w self) as [e|[raw|]] eqn:Est; cbn [negb].
  - right. eexists _, _. split; [reflexivity|]. split; reflexivity.
  - unfold ret, read_file. cbn beta iota. rewrite Est.
    destruct (PassEncryptedMessage_from_bytes raw) as [c|e] eqn:Ep.
    + left. exists raw, c. repeat split; assumption || reflexivity.
    + right. eexists _, _. split; [reflexivity|]. split; reflexivity.
  - unfold ret, read_file. cbn beta iota. rewrite Est.
    right. eexists _, _. split; [reflexivity|]. split; reflexivity.
Qed.

(** Reading the property: a hit returns the stored container; a miss
    stores what the file parses to, and stores nothing on failure. *)
Lemma encrypted_file_bytes_cases self s :
  (exists c, cached s = Some c /\ encrypted_file_bytes self s = (Return c, s))
  \/ (cached s = None /\ exists raw c,
        stat (world s) self = inr (NFile raw)
        /\ PassEncryptedMessage_from_bytes raw = Return c
        /\ encrypted_file_bytes self s = (Return c, mkProcess (world s) (Some c)))
  \/ (cached s = None /\ exists e w',
        encrypted_file_bytes self s = (Raise e, mkProcess w' None)
        /\ w_fs w' = w_fs (world s) /\ w_cwd w' = w_cwd (world s)).
Proof.
  unfold encrypted_file_bytes, bind, gets.
  destruct (cached s) as [c|] eqn:Ec.
  - left. exists c. split; reflexivity.
  - right. unfold in_world.
    destruct (encrypted_file_bytes_body_cases self (world s))
      as [[raw [c [Hst [Hp Hb]]]] | [e [w' [Hb [Hfs Hcwd]]]]]; rewrite Hb.
    + left. split; [reflexivity|]. exists raw, c.
      repeat split; assumption.
    + right. split; [reflexivity|]. exists e, w'. rewrite Ec.
      repeat split; assumption.
Qed.

Lemma encrypted_file_bytes_miss self s raw c :
  cached s = None ->
  stat (world s) self = inr (NFile raw) ->
  PassEncryptedMessage_from_bytes raw = Return c ->
  encrypted_file_bytes self s = (Return c, mkProcess (world s) (Some c)).
Proof.
  intros Hc Hst Hp.
  unfold encrypted_file_bytes, bind, gets. simpl. rewrite Hc.
  unfold in_world, encrypted_file_bytes_body, bind, lift_outcome.
  rewrite Path_exists_eq, Hst. cbn [negb].
  unfold ret, read_file. cbn beta iota. rewrite Hst, Hp. reflexivity.
Qed.

(** Whatever happens in it, the invalidation leaves no container behind
    and does not touch the disk. *)
Lemma invalidate_clears self s :
  cached (snd (invalidate self s)) = None
  /\ w_fs (world (snd (invalidate self s))) = w_fs (world s)
  /\ w_cwd (world (snd (invalidate self s))) = w_cwd (world s)
  /\ (forall raw c, stat (world s) self = inr (NFile raw) ->
      PassEncryptedMessage_from_bytes raw = Return c ->
      invalidate self s = (Return tt, mkProcess (world s) None)).
Proof.
  unfold invalidate, hasattr_encrypted_file_bytes, try_except, bind.
  destruct (encrypted_file_bytes_cases self s)
    as [[c [Hc He]] | [[Hc [raw [c [Hst [Hp He]]]]] | [Hc [e [w' [He [Hfs Hcwd]]]]]]];
    rewrite He.
  - unfold ret at 1. unfold del_encrypted_file_bytes, bind, gets.
    simpl. rewrite Hc. simpl. repeat split; intros; reflexivity.
  - unfold ret at 1. unfold del_encrypted_file_bytes, bind, gets. simpl.
    repeat split; intros; reflexivity.
  - assert (Hx : forall x : outcome unit * Process PassEncryptedMessage,
               x = (Raise e, mkProcess w' None)
               \/ x = (Return tt, mkProcess w' None) ->
               cached (snd x) = None /\ w_fs (world (snd x)) = w_fs (world s)
               /\ w_cwd (world (snd x)) = w_cwd (world s)
               /\ (forall raw c, stat (world s) self = inr (NFile raw) ->
                   PassEncryptedMessage_from_bytes raw = Return c ->
                   x = (Return tt, mkProcess (world s) None))).
    { intros x Hx.
      split; [destruct Hx as [-> | ->]; reflexivity|].
      split; [destruct Hx as [-> | ->]; exact Hfs|].
      split; [destruct Hx as [-> | ->]; exact Hcwd|].
      intros raw c Hst Hp. exfalso.
      rewrite (encrypted_file_bytes_miss self s raw c Hc Hst Hp) in He.
      discriminate. }
    apply Hx. destruct e; auto.
Qed.

End Cache.

Lemma stat_insert_dir w k p raw :
  lookup_node (w_fs w) k = None ->
  stat w p = inr (NFile raw) ->
  stat (set_fs (insert k NDir) w) p = inr (NFile raw).
Proof.
  intros Hk. unfold stat.
  destruct (resolve w p) as [e|k'] eqn:Er; [discriminate|].
  destruct (lookup_node (w_fs w) k') as [n|] eqn:El; [|discriminate].
  intros Hn. inversion Hn; subst n.
  rewrite (resolve_set_fs_insert p w k k' NDir) by (congruence || assumption).
  simpl w_fs. rewrite lookup_node_insert_ne by congruence.
  rewrite El. reflexivity.
Qed.

Lemma Path_mkdir_cases p w :
  (exists r, Path_mkdir p true w = (r, w))
  \/ (exists k, lookup_node (w_fs w) k = None
        /\ Path_mkdir p true w = (Return tt, set_fs (insert k NDir) w)).
Proof.
  unfold Path_mkdir, try_except, os_mkdir.
  destruct (resolve w p) as [[|]|k] eqn:Er.
  - left. eexists. reflexivity.
  - left. unfold bind, Path_is_dir, gets. cbn [negb orb exn_of_errno].
    destruct (stat w p) as [e|[d|]]; eexists; reflexivity.
  - destruct (lookup_node (w_fs w) k) as [n|] eqn:El.
    + left. unfold bind, Path_is_dir, gets. cbn [negb orb].
      destruct (stat w p) as [e|[d|]]; eexists; reflexivity.
    + right. exists k. split; [exact El | reflexivity].
Qed.

Lemma with_open_wb_cases self data w :
  (exists e, with_open_wb self (ret data) w = (Raise e, w))
  \/ (exists k, resolve w self = inr k
        /\ lookup_node (w_fs w) k <> Some NDir
        /\ with_open_wb self (ret data) w
           = (Return tt, set_fs (insert k (NFile data)) w)).
Proof.
  destruct (resolve w self) as [e|k] eqn:Er.
  { left. eexists. apply with_open_wb_unresolved. exact Er. }
  destruct (lookup_node (w_fs w) k) as [[d|]|] eqn:El.
  2: { left. exists IsADirectoryError.
       unfold with_open_wb, bind. rewrite write_file_eq, Er, El. reflexivity. }
  all: right; exists k; split; [reflexivity|];
    assert (Hk : lookup_node (w_fs w) k <> Some NDir) by congruence;
    split; [exact Hk | apply with_open_wb_ret; [exact Er | exact Hk]].
Qed.

(** The overwrite prompt changes the trace and uses up an answer, nothing
    else. *)
Lemma confirm_step_disk self (confirm : bool) w :
  let step :=
    (let* present := Path_exists self in
     if confirm && present then
       try_except
         (click_confirm ("file " +:+ str self +:+ " already EXISTS! Overwrite?") >>
          ret tt)
         on_abort
     else ret tt) in
  w_fs (snd (step w)) = w_fs w /\ w_cwd (snd (step w)) = w_cwd w
  /\ w_seed (snd (step w)) = w_seed w
  /\ (stat w self = inl ENOENT -> step w = (Return tt, w)).
Proof.
  cbv zeta. unfold bind. rewrite Path_exists_eq.
  destruct (stat w self) as [e|n] eqn:Est.
  - rewrite andb_false_r. repeat split; intros; reflexivity.
  - rewrite andb_true_r. destruct confirm.
    + unfold try_except, click_confirm, modify, on_abort, bind. simpl.
      destruct (w_answers w) as [|[|] rest]; simpl;
        repeat split; intros; discriminate || reflexivity.
    + repeat split; intros; discriminate || reflexivity.
Qed.

Lemma stat_same_disk w1 w2 p :
  w_fs w1 = w_fs w2 -> w_cwd w1 = w_cwd w2 -> stat w1 p = stat w2 p.
Proof.
  intros Hfs Hcwd. unfold stat, resolve, components. rewrite Hfs, Hcwd.
  reflexivity.
Qed.

Lemma bind_eval {S A B} (c : M S A) (k : A -> M S B) s a s1 :
  c s = (Return a, s1) -> bind c k s = k a s1.
Proof. intros E. unfold bind. rewrite E. reflexivity. Qed.

Lemma bind_raise {S A B} (c : M S A) (k : A -> M S B) s e s1 :
  c s = (Raise e, s1) -> bind c k s = (Raise e, s1).
Proof. intros E. unfold bind. rewrite E. reflexivity. Qed.

Lemma in_world_eval {C A} (c : M World A) (s : Process C) r w1 :
  c (world s) = (r, w1) -> in_world c s = (r, mkProcess w1 (cached s)).
Proof. intros E. unfold in_world. rewrite E. reflexivity. Qed.

Section SecretKeyFileProperties.
Context `{Crypto}.

(** How a call of write_encrypted can end: either it fails before the
    file is written, and then the memoized container and the files on
    disk are as before; or the file now holds the bytes of the container
    just encrypted and nothing is memoized. *)
Lemma write_encrypted_cases self key mp confirm announce s :
  let res := SecretKeyFile_write_encrypted self key mp confirm announce s in
  (exists e, fst res = Raise e /\ cached (snd res) = cached s
     /\ forall raw, stat (world s) self = inr (NFile raw) ->
                    stat (world (snd res)) self = inr (NFile raw))
  \/ (exists r r' box raw em,
        KeySecretBox_init mp r = Return box
        /\ nacl.encode key = Return raw
        /\ KeySecretBox_encrypt box r' raw = Return em
        /\ stat (world (snd res)) self
           = inr (NFile (PassEncryptedMessage_bytes em))
        /\ cached (snd res) = None).
Proof.
  intros res. remember res as v eqn:Hres. unfold res in Hres. clear res.
  unfold SecretKeyFile_write_encrypted in Hres.
  match type of Hres with
  | _ = bind (in_world ?c) _ _ => set (step := c) in Hres
  end.
  destruct (confirm_step_disk self confirm (world s)) as [Hfs [Hcwd [Hseed _]]].
  fold step in Hfs, Hcwd, Hseed.
  destruct (step (world s)) as [r1 w1] eqn:E1. simpl in Hfs, Hcwd, Hseed.
  pose proof (in_world_eval step s r1 w1 E1) as Es.
  assert (Hst1 : forall p, stat w1 p = stat (world s) p)
    by (intros p; apply stat_same_disk; assumption).
  destruct r1 as [[]|e].
  2: { rewrite (bind_raise _ _ _ _ _ Es) in Hres. subst v. left. exists e.
       simpl. repeat split. intros raw. rewrite Hst1. auto. }
  rewrite (bind_eval _ _ _ _ _ Es) in Hres. cbv beta in Hres.
  erewrite bind_eval in Hres by reflexivity. cbv beta in Hres.
  simpl world in Hres. simpl cached in Hres.
  set (w2 := set_seed (N.succ (w_seed w1)) w1) in Hres.
  destruct (KeySecretBox_init mp (w_seed w1)) as [box|e] eqn:Ei.
  2: { subst v. left. exists e. simpl. repeat split.
       intros raw. rewrite <- Hst1. auto. }
  erewrite bind_eval in Hres by reflexivity. cbv beta in Hres.
  destruct (nacl.encode key) as [raw|e] eqn:Ek.
  2: { subst v. left. exists e. simpl. repeat split.
       intros raw. rewrite <- Hst1. auto. }
  erewrite bind_eval in Hres by reflexivity. cbv beta in Hres.
  erewrite bind_eval in Hres by reflexivity. cbv beta in Hres.
  simpl world in Hres. simpl cached in Hres. simpl w_seed in Hres.
  set (w3 := set_seed (N.succ (N.succ (w_seed w1))) w2) in Hres.
  destruct (KeySecretBox_encrypt box (N.succ (w_seed w1)) raw) as [em|e] eqn:Ee.
  2: { subst v. left. exists e. simpl. repeat split.
       intros raw'. rewrite <- Hst1. auto. }
  erewrite bind_eval in Hres by reflexivity. cbv beta in Hres.
  assert (Hst3 : forall p, stat w3 p = stat (world s) p)
    by (intros p; rewrite <- Hst1; reflexivity).
  (* the parent directory *)
  assert (Hmk : exists r4 w4,
             Path_mkdir (parent self) true w3 = (r4, w4)
             /\ forall raw', stat (world s) self = inr (NFile raw') ->
                             stat w4 self = inr (NFile raw')).
  { destruct (Path_mkdir_cases (parent self) w3) as [[r4 E4]|[k [Hk E4]]].
    - exists r4, w3. split; [exact E4|]. intros raw'. rewrite Hst3. auto.
    - exists (Return tt), (set_fs (insert k NDir) w3). split; [exact E4|].
      intros raw' Hs. apply stat_insert_dir; [exact Hk|]. rewrite Hst3. exact Hs. }
  destruct Hmk as [r4 [w4 [E4 Hst4]]].
  pose proof (in_world_eval _ (mkProcess w3 (cached s)) _ _ E4) as Es4.
  simpl cached in Es4.
  destruct r4 as [[]|e].
  2: { rewrite (bind_raise _ _ _ _ _ Es4) in Hres. subst v. left. exists e.
       simpl. repeat split. exact Hst4. }
  rewrite (bind_eval _ _ _ _ _ Es4) in Hres. cbv beta in Hres.
  (* the file *)
  destruct (with_open_wb_cases self (PassEncryptedMessage_bytes em) w4)
    as [[e E5]|[k [Hr5 [Hk5 E5]]]].
  { pose proof (in_world_eval _ (mkProcess w4 (cached s)) _ _ E5) as Es5.
    rewrite (bind_raise _ _ _ _ _ Es5) in Hres. subst v. left. exists e.
    simpl. repeat split. exact Hst4. }
  pose proof (in_world_eval _ (mkProcess w4 (cached s)) _ _ E5) as Es5.
  rewrite (bind_eval _ _ _ _ _ Es5) in Hres. cbv beta in Hres.
  simpl cached in Hres.
  set (s5 := mkProcess (set_fs (insert k (NFile (PassEncryptedMessage_bytes em))) w4)
               (cached s)) in Hres.
  assert (Hst5 : stat (world s5) self
                 = inr (NFile (PassEncryptedMessage_bytes em)))
    by (apply stat_after_write; assumption).
  (* the invalidation and the message *)
  right. exists (w_seed w1), (N.succ (w_seed w1)), box, raw, em.
  split; [exact Ei|]. split; [reflexivity|]. split; [exact Ee|].
  destruct (invalidate_clears self s5) as [Hc6 [Hfs6 [Hcwd6 _]]].
  destruct (invalidate self s5) as [r6 s6] eqn:E6. simpl in Hc6, Hfs6, Hcwd6.
  assert (Hst6 : stat (world s6) self
                 = inr (NFile (PassEncryptedMessage_bytes em)))
    by (rewrite <- Hst5; apply stat_same_disk; assumption).
  destruct r6 as [[]|e].
  2: { rewrite (bind_raise _ _ _ _ _ E6) in Hres. subst v. simpl.
       split; assumption. }
  rewrite (bind_eval _ _ _ _ _ E6) in Hres. cbv beta in Hres.
  destruct announce; subst v; simpl; split; assumption.
Qed.


(** With nothing memoized, retrieve reads the file. *)
Lemma retrieve_reads_disk self mp s raw box :
  cached s = None ->
  stat (world s) self = inr (NFile raw) ->
  KeySecretBox_init mp (w_seed (world s)) = Return box ->
  fst (SecretKeyFile_retrieve self mp s) = decrypt_file_bytes box mp raw.
Proof.
  intros Hc Hst Hi. unfold SecretKeyFile_retrieve.
  erewrite bind_eval by reflexivity. cbv beta.
  erewrite bind_eval by (unfold lift_outcome; rewrite Hi; reflexivity).
  cbv beta. unfold decrypt_file_bytes.
  destruct (PassEncryptedMessage_from_bytes raw) as [c|e] eqn:Ep.
  - erewrite bind_eval
      by (apply encrypted_file_bytes_miss with (raw := raw);
          [exact Hc | exact Hst | exact Ep]).
    cbv beta. unfold bind, lift_outcome.
    destruct (KeySecretBox_decrypt_message box c mp); reflexivity.
  - erewrite bind_raise; [reflexivity|].
    unfold encrypted_file_bytes, bind, gets. simpl. rewrite Hc.
    unfold in_world, encrypted_file_bytes_body, bind, lift_outcome. simpl world.
    rewrite Path_exists_eq.
    change (stat (set_seed (N.succ (w_seed (world s))) (world s)) self)
      with (stat (world s) self).
    rewrite Hst. cbn [negb]. unfold ret, read_file. cbn beta iota.
    change (stat (set_seed (N.succ (w_seed (world s))) (world s)) self)
      with (stat (world s) self).
    rewrite Hst, Ep. reflexivity.
Qed.

(** With a container memoized, retrieve does not look at the file. *)
Lemma retrieve_uses_cache self mp s c box :
  cached s = Some c ->
  KeySecretBox_init mp (w_seed (world s)) = Return box ->
  fst (SecretKeyFile_retrieve self mp s) =
  match KeySecretBox_decrypt_message box c mp with
  | Return plain => nacl.PrivateKey plain
  | Raise e => Raise e
  end.
Proof.
  intros Hc Hi. unfold SecretKeyFile_retrieve.
  erewrite bind_eval by reflexivity. cbv beta.
  erewrite bind_eval by (unfold lift_outcome; rewrite Hi; reflexivity).
  cbv beta.
  erewrite bind_eval
    by (unfold encrypted_file_bytes, bind, gets; simpl; rewrite Hc; reflexivity).
  cbv beta. unfold bind, lift_outcome.
  destruct (KeySecretBox_decrypt_message box c mp); reflexivity.
Qed.

Lemma encrypted_file_bytes_keeps_consistent self s :
  cache_consistent self s ->
  cache_consistent self (snd (encrypted_file_bytes self s)).
Proof.
  intros Hs.
  destruct (encrypted_file_bytes_cases self s)
    as [[c [Hc He]] | [[Hc [raw [c [Hst [Hp He]]]]] | [Hc [e [w' [He _]]]]]];
    rewrite He; simpl.
  - exact Hs.
  - intros c' Hc'. simpl in Hc'. inversion Hc'; subst c'.
    exists raw. split; assumption.
  - intros c' Hc'. discriminate.
Qed.

Lemma retrieve_keeps_consistent self mp s :
  cache_consistent self s ->
  cache_consistent self (snd (SecretKeyFile_retrieve self mp s)).
Proof.
  intros Hs. unfold SecretKeyFile_retrieve.
  erewrite bind_eval by reflexivity. cbv beta.
  set (s1 := mkProcess (set_seed (N.succ (w_seed (world s))) (world s))
               (cached s)).
  assert (Hs1 : cache_consistent self s1) by exact Hs.
  destruct (KeySecretBox_init mp (w_seed (world s))) as [box|e]; [|exact Hs1].
  erewrite bind_eval by reflexivity. cbv beta.
  pose proof (encrypted_file_bytes_keeps_consistent self s1 Hs1) as Hs2.
  unfold bind at 1.
  destruct (encrypted_file_bytes self s1) as [[c|e] s2]; [|exact Hs2].
  simpl in Hs2. unfold bind, lift_outcome.
  destruct (KeySecretBox_decrypt_message box c mp); [|exact Hs2].
  destruct (nacl.PrivateKey _); exact Hs2.
Qed.

(** C7.  After write_encrypted has returned, nothing is memoized: the
    file holds the bytes of the container encrypted by this call, and a
    retrieve that follows parses and decrypts those bytes.  Moreover a
    memoized container is always the parse of the bytes now in the file:
    this holds for a new object and is kept by write_encrypted, by
    retrieve and by reading the property, however they end. *)
Theorem write_encrypted_invalidates_cache (self : PurePath) (key : pyobj)
    (mp : string) (confirm announce : bool)
    (s : Process PassEncryptedMessage) :
  (forall s',
     SecretKeyFile_write_encrypted self key mp confirm announce s
       = (Return tt, s') ->
     cached s' = None
     /\ exists r r' box raw em,
          KeySecretBox_init mp r = Return box
          /\ nacl.encode key = Return raw
          /\ KeySecretBox_encrypt box r' raw = Return em
          /\ stat (world s') self = inr (NFile (PassEncryptedMessage_bytes em))
          /\ forall mp' box',
               KeySecretBox_init mp' (w_seed (world s')) = Return box' ->
               fst (SecretKeyFile_retrieve self mp' s')
               = decrypt_file_bytes box' mp' (PassEncryptedMessage_bytes em))
  /\ (forall w, cache_consistent self (mkProcess w None))
  /\ (cache_consistent self s ->
      cache_consistent self
        (snd (SecretKeyFile_write_encrypted self key mp confirm announce s))
      /\ cache_consistent self (snd (encrypted_file_bytes self s))
      /\ forall mp', cache_consistent self (snd (SecretKeyFile_retrieve self mp' s))).
Proof.
  pose proof (write_encrypted_cases self key mp confirm announce s) as Hcases.
  cbv zeta in Hcases.
  split; [|split].
  - intros s' Hres. rewrite Hres in Hcases. simpl in Hcases.
    destruct Hcases as [[e [He _]] | [r [r' [box [raw [em [Hi [Hk [He [Hst Hc]]]]]]]]]];
      [discriminate|].
    split; [exact Hc|]. exists r, r', box, raw, em.
    repeat (split; [assumption|]).
    intros mp' box' Hi'. apply retrieve_reads_disk; assumption.
  - intros w c Hc. discriminate.
  - intros Hs. split; [|split].
    + destruct Hcases as [[e [_ [Hc Hst]]] | [r [r' [box [raw [em [_ [_ [_ [_ Hc]]]]]]]]]].
      * intros c Hcc. rewrite Hc in Hcc. destruct (Hs c Hcc) as [raw [Hraw Hp]].
        exists raw. split; [apply Hst; exact Hraw | exact Hp].
      * intros c Hcc. rewrite Hc in Hcc. discriminate.
    + apply encrypted_file_bytes_keeps_consistent. exact Hs.
    + intros mp'. apply retrieve_keeps_consistent. exact Hs.
Qed.

End SecretKeyFileProperties.

Lemma write_encrypted_invalidates_cache_witness :
  cached demo.reading_process
    = Some (list_byte_of_string demo.master_passwd ++ demo.secret_key)
  /\ cached (snd (SecretKeyFile_write_encrypted demo.alice_enc
                    (OPrivateKey demo.other_secret_key) demo.master_passwd
                    false false demo.reading_process)) = None
  /\ fst (SecretKeyFile_retrieve demo.alice_enc demo.master_passwd
            (snd (SecretKeyFile_write_encrypted demo.alice_enc
                    (OPrivateKey demo.other_secret_key) demo.master_passwd
                    false false demo.reading_process)))
     = Return (OPrivateKey demo.other_secret_key).
Proof.
  split; [reflexivity|].
  pose proof (proj1 (write_encrypted_invalidates_cache demo.alice_enc
                       (OPrivateKey demo.other_secret_key) demo.master_passwd
                       false false demo.reading_process)
                _ ltac:(vm_compute; reflexivity)) as Hw.
  split; [|vm_compute; reflexivity].
  exact (proj1 Hw).
Defined.

(** C9, as stated, fails: on an empty disk neither write method creates
    [/a] for a key file [/a/b/alice.*]; both raise FileNotFoundError and
    leave the disk empty. *)
Lemma write_does_not_create_ancestors :
  PublicKeyFile_write demo.deep_pub (OPublicKey demo.public_key) false false
    demo.empty_world = (Raise FileNotFoundError, demo.empty_world)
  /\ fst (SecretKeyFile_write_encrypted demo.deep_enc (OPrivateKey demo.secret_key)
            demo.master_passwd false false (mkProcess demo.empty_world None))
     = Raise FileNotFoundError
  /\ w_fs (world (snd (SecretKeyFile_write_encrypted demo.deep_enc
                         (OPrivateKey demo.secret_key) demo.master_passwd
                         false false (mkProcess demo.empty_world None))))
     = ∅.
Proof. repeat split; vm_compute; reflexivity. Qed.

Section ParentDirectory.
Context `{Crypto}.

(** C9, amended.  For a key file [/d1/.../dn/nm], whatever the flags:
    when an ancestor of the parent directory is missing, write and
    write_encrypted raise FileNotFoundError and the disk is unchanged;
    when only the parent directory itself is missing, it is created and
    the file is then written into it. *)
Theorem write_creates_only_the_parent_directory (dcomps : list string)
    (nm : string) (raw : bytes) (mp : string) (confirm announce : bool)
    (w : World) (cache : option PassEncryptedMessage)
    (box : KeySecretBox) (em : PassEncryptedMessage) :
  KeySecretBox_init mp (w_seed w) = Return box ->
  KeySecretBox_encrypt box (N.succ (w_seed w)) raw = Return em ->
  let self := under dcomps nm in
  let written :=
    PublicKeyFile_write self (OPublicKey raw) confirm announce w in
  let written_encrypted :=
    SecretKeyFile_write_encrypted self (OPrivateKey raw) mp confirm announce
      (mkProcess w cache) in
  (walk (w_fs w) [] dcomps = inl ENOENT ->
   written = (Raise FileNotFoundError, w)
   /\ fst written_encrypted = Raise FileNotFoundError
   /\ w_fs (world (snd written_encrypted)) = w_fs w)
  /\ (forall kd,
      walk (w_fs w) [] dcomps = inr kd ->
      lookup_node (w_fs w) kd = None ->
      lookup_node (w_fs w) (kd ++ [nm]) = None ->
      nm <> ".." ->
      fst written = Return tt
      /\ w_fs (snd written) = <[kd ++ [nm] := NFile raw]> (<[kd := NDir]> (w_fs w))
      /\ w_fs (world (snd written_encrypted))
         = <[kd ++ [nm] := NFile (PassEncryptedMessage_bytes em)]>
             (<[kd := NDir]> (w_fs w))).
Proof.
  intros Hi He self written written_encrypted.
  set (w1 := set_seed (N.succ (w_seed w)) w).
  set (w2 := set_seed (N.succ (N.succ (w_seed w))) w1).
  assert (Hpub : stat w self = inl ENOENT ->
    written =
    (Path_mkdir (parent self) true >>
     with_open_wb self (ret raw) >>
     if announce
     then click_echo ("public key file written at " +:+ str self) false
     else ret tt) w).
  { intros Hst. unfold written, PublicKeyFile_write.
    erewrite bind_eval by (rewrite Path_exists_eq, Hst; reflexivity).
    cbv beta. rewrite andb_false_r.
    erewrite bind_eval by reflexivity. reflexivity. }
  assert (Hsec : stat w self = inl ENOENT ->
    written_encrypted =
    (in_world (Path_mkdir (parent self) true) >>
     in_world (with_open_wb self (ret (PassEncryptedMessage_bytes em))) >>
     invalidate self >>
     if announce
     then in_world (click_echo ("secret key file written at " +:+ str self) false)
     else ret tt) (mkProcess w2 cache)).
  { intros Hst. unfold written_encrypted, SecretKeyFile_write_encrypted.
    destruct (confirm_step_disk self confirm w) as [_ [_ [_ Hstep]]].
    erewrite bind_eval
      by (apply in_world_eval; apply Hstep; exact Hst).
    cbv beta. simpl cached.
    erewrite bind_eval by reflexivity. cbv beta.
    erewrite bind_eval by (unfold lift_outcome; simpl; rewrite Hi; reflexivity).
    cbv beta.
    erewrite bind_eval by reflexivity. cbv beta.
    erewrite bind_eval by reflexivity. cbv beta.
    erewrite bind_eval by (unfold lift_outcome; simpl; rewrite He; reflexivity).
    reflexivity. }
  split.
  - intros Hw.
    destruct (mkdir_parent_missing_ancestor dcomps nm w Hw) as [Hst Hmk].
    destruct (mkdir_parent_missing_ancestor dcomps nm w2 Hw) as [_ Hmk2].
    fold self in Hst, Hmk, Hmk2.
    split; [|split].
    + rewrite (Hpub Hst). apply bind_raise. exact Hmk.
    + rewrite (Hsec Hst).
      erewrite bind_raise by (apply in_world_eval; exact Hmk2).
      reflexivity.
    + rewrite (Hsec Hst).
      erewrite bind_raise by (apply in_world_eval; exact Hmk2).
      reflexivity.
  - intros kd Hw Hkd Hnm Hdots.
    destruct (mkdir_parent_then_write dcomps nm w kd raw Hw Hkd Hnm Hdots)
      as [Hst [Hmk Hwr]].
    destruct (mkdir_parent_then_write dcomps nm w2 kd
                (PassEncryptedMessage_bytes em) Hw Hkd Hnm Hdots)
      as [_ [Hmk2 Hwr2]].
    fold self in Hst, Hmk, Hwr, Hmk2, Hwr2.
    rewrite (Hpub Hst), (Hsec Hst).
    rewrite (bind_eval _ _ _ _ _ Hmk). cbv beta.
    rewrite (bind_eval _ _ _ _ _ Hwr). cbv beta.
    erewrite (bind_eval (in_world (Path_mkdir (parent self) true)))
      by (apply in_world_eval; exact Hmk2).
    cbv beta.
    erewrite (bind_eval (in_world (with_open_wb self _)))
      by (apply in_world_eval; exact Hwr2).
    cbv beta. simpl cached.
    split; [destruct announce; reflexivity|].
    split; [destruct announce; reflexivity|].
    match goal with
    | |- context [bind (invalidate self) ?k ?s0] =>
        destruct (invalidate_clears self s0) as [_ [Hfs _]];
        unfold bind at 1;
        destruct (invalidate self s0) as [[[]|e] s6]; simpl in Hfs
    end.
    + destruct announce; simpl; exact Hfs.
    + simpl. exact Hfs.
Qed.

End ParentDirectory.

Lemma write_creates_only_the_parent_directory_witness :
  walk (w_fs demo.empty_world) [] ["a"; "b"] = inl ENOENT
  /\ walk (w_fs demo.empty_world) [] ["s"] = inr ["s"]
  /\ PublicKeyFile_write (under ["a"; "b"] "alice.pub") (OPublicKey demo.public_key)
       true true demo.empty_world = (Raise FileNotFoundError, demo.empty_world)
  /\ w_fs (snd (PublicKeyFile_write (under ["s"] "alice.pub")
                  (OPublicKey demo.public_key) true true demo.empty_world))
     = <[ ["s"; "alice.pub"] := NFile demo.public_key ]> (<[ ["s"] := NDir ]> ∅).
Proof.
  pose proof (write_creates_only_the_parent_directory ["a"; "b"] "alice.pub"
                demo.public_key demo.master_passwd true true demo.empty_world
                None demo.master_passwd
                (list_byte_of_string demo.master_passwd ++ demo.public_key)
                eq_refl eq_refl) as Hdeep.
  pose proof (write_creates_only_the_parent_directory ["s"] "alice.pub"
                demo.public_key demo.master_passwd true true demo.empty_world
                None demo.master_passwd
                (list_byte_of_string demo.master_passwd ++ demo.public_key)
                eq_refl eq_refl) as Hstore.
  cbv zeta in Hdeep, Hstore.
  split; [reflexivity|]. split; [reflexivity|]. split.
  - exact (proj1 (proj1 Hdeep eq_refl)).
  - exact (proj1 (proj2 (proj2 Hstore ["s"] eq_refl eq_refl eq_refl
                           ltac:(discriminate)))).
Defined.

(** * Further properties of the code *)

(** ** Service names and paths *)

Lemma contains_append c s t :
  pystr.contains c (s +:+ t) = pystr.contains c s || pystr.contains c t.
Proof.
  induction s as [|a s IH]; [reflexivity|].
  change (String a s +:+ t) with (String a (s +:+ t)).
  cbn [pystr.contains]. rewrite IH. apply orb_assoc.
Qed.

Lemma startswith_append c s t :
  s <> "" -> pystr.startswith c (s +:+ t) = pystr.startswith c s.
Proof. destruct s; [congruence | reflexivity]. Qed.

Lemma nonempty_append s t : s <> "" -> pystr.nonempty (s +:+ t) = true.
Proof. destruct s; [congruence | reflexivity]. Qed.

Lemma length_append s t :
  String.length (s +:+ t) = (String.length s + String.length t)%nat.
Proof.
  induction s as [|a s IH]; [reflexivity|].
  change (String a s +:+ t) with (String a (s +:+ t)).
  cbn [String.length]. rewrite IH. reflexivity.
Qed.

Lemma rfind_range c s : (-1 <= pystr.rfind c s < pystr.len s)%Z.
Proof.
  unfold pystr.len.
  induction s as [|a s IH]; cbn [String.length pystr.rfind].
  - change (Z.of_nat 0) with 0%Z. lia.
  - rewrite Nat2Z.inj_succ. destruct (0 <=? pystr.rfind c s)%Z eqn:E.
    + apply Z.leb_le in E. lia.
    + destruct (Ascii.eqb a c); lia.
Qed.

(** The last occurrence in [s ++ t] is the last one in [t] when there is
    one. *)
Lemma rfind_append c s t :
  (0 <= pystr.rfind c t)%Z ->
  pystr.rfind c (s +:+ t) = (pystr.len s + pystr.rfind c t)%Z.
Proof.
  intros Ht. unfold pystr.len.
  induction s as [|a s IH].
  - change ("" +:+ t) with t. change (Z.of_nat (String.length "")) with 0%Z. lia.
  - change (String a s +:+ t) with (String a (s +:+ t)).
    cbn [String.length pystr.rfind]. rewrite IH, Nat2Z.inj_succ.
    replace (0 <=? Z.of_nat (String.length s) + pystr.rfind c t)%Z with true
      by (symmetry; apply Z.leb_le; lia).
    lia.
Qed.

Lemma drop_append s t : pystr.drop (String.length s) (s +:+ t) = t.
Proof.
  induction s as [|a s IH]; [destruct t; reflexivity|].
  change (String a s +:+ t) with (String a (s +:+ t)). exact IH.
Qed.

Lemma take_append s t : pystr.take (String.length s) (s +:+ t) = s.
Proof.
  induction s as [|a s IH]; [destruct t; reflexivity|].
  change (String a s +:+ t) with (String a (s +:+ t)).
  cbn [String.length pystr.take]. rewrite IH. reflexivity.
Qed.

Lemma append_empty_r s : s +:+ "" = s.
Proof.
  induction s as [|a s IH]; [reflexivity|].
  change (String a s +:+ "") with (String a (s +:+ "")). rewrite IH. reflexivity.
Qed.

(** A component [n.enc] with a non-empty [n] has the suffix [.enc]. *)
Lemma suffix_of_enc_name root parts n :
  n <> "" -> parts <> [] ->
  suffix (mkPath root (parts ++ [n +:+ ".enc"])) = ".enc".
Proof.
  intros Hn Hparts.
  assert (Hname : name (mkPath root (parts ++ [n +:+ ".enc"])) = n +:+ ".enc").
  { unfold name. cbn [_parts _root]. rewrite length_app. cbn [length].
    destruct parts as [|x parts]; [congruence|]. cbn [length].
    replace (_ =? _)%nat with false
      by (symmetry; apply Nat.eqb_neq; destruct (pystr.nonempty root); lia).
    apply List.last_last. }
  unfold suffix. rewrite Hname.
  rewrite (rfind_append "."%char n ".enc") by (simpl; lia).
  change (pystr.rfind "."%char ".enc") with 0%Z.
  unfold pystr.len. rewrite length_append. simpl String.length.
  assert (Hlen : (0 < String.length n)%nat) by (destruct n; [congruence | simpl; lia]).
  replace (0 <? Z.of_nat (String.length n) + 0)%Z with true
    by (symmetry; apply Z.ltb_lt; lia).
  replace (Z.of_nat (String.length n) + 0 <? Z.of_nat (String.length n + 4) - 1)%Z
    with true by (symmetry; apply Z.ltb_lt; lia).
  cbn [andb]. rewrite Z.add_0_r, Nat2Z.id. apply drop_append.
Qed.

Lemma parse_single_string key : _parse_args [AStr key] = parse_parts [key].
Proof. reflexivity. Qed.

Lemma parse_path_argument p :
  parse_parts (_parts p) = p -> _parse_args [APath p] = p.
Proof.
  intros Hp. unfold _parse_args. simpl flat_map. rewrite app_nil_r. exact Hp.
Qed.

Lemma absolute_fixed cwd p : is_absolute p = true -> absolute cwd p = p.
Proof. intros Hp. unfold absolute. rewrite Hp. reflexivity. Qed.

Lemma nonempty_length s : s <> "" -> (String.length s =? 0)%nat = false.
Proof. destruct s; [congruence | reflexivity]. Qed.

(** The path that [from_service_name] builds for a name that does not
    start with a separator. *)
Lemma from_service_name_relative service_name store w :
  parse_parts (_parts store) = store -> is_absolute store = true ->
  service_name <> "" -> pystr.startswith sep service_name = false ->
  from_service_name service_name store w =
  (let p := mkPath (_root store)
              (_parts store
               ++ _parts (_parse_args [AStr (service_name +:+ PASSWD_FILE_EXT)])) in
   if String.eqb (suffix p) ".enc" then Return p else Raise InvalidFilenameErr, w).
Proof.
  intros Hstore Habs Hne Hrel. cbv zeta.
  unfold from_service_name. rewrite (nonempty_length _ Hne).
  unfold PasswdFile.
  set (key := service_name +:+ PASSWD_FILE_EXT).
  assert (Hkey : _root (_parse_args [AStr key]) = "").
  { apply parse_relative_string. unfold key.
    rewrite startswith_append by exact Hne. exact Hrel. }
  assert (Hjoin : truediv store key
                  = mkPath (_root store) (_parts store ++ _parts (_parse_args [AStr key]))).
  { unfold truediv, join_parsed_parts. rewrite Hkey. reflexivity. }
  assert (Harg : _parse_args [APath (truediv store key)]
                 = mkPath (_root store)
                     (_parts store ++ _parts (_parse_args [AStr key]))).
  { rewrite Hjoin. apply parse_path_argument.
    cbn [_parts]. apply join_relative_fixed; try assumption.
    rewrite parse_single_string. apply parse_parts_idempotent. }
  rewrite construct_absolute by (rewrite Harg; exact Habs).
  rewrite Harg.
  unfold PasswdFile_init, is_None, PASSWD_FILE_EXT.
  destruct (String.eqb _ ".enc"); reflexivity.
Qed.

(** X1.  For a store that is an absolute path and a non-empty service name
    that does not start with a slash, from_service_name appends to the
    store's parts every component of [service_name + ".enc"] as the parser
    leaves it, parent-directory segments included, and accepts the result
    exactly when its last component has the suffix [.enc]. *)
Theorem from_service_name_appends_components (service_name : string)
    (store : PurePath) (w : World) :
  parse_parts (_parts store) = store -> is_absolute store = true ->
  service_name <> "" -> pystr.startswith sep service_name = false ->
  let p := mkPath (_root store)
             (_parts store
              ++ _parts (_parse_args [AStr (service_name +:+ PASSWD_FILE_EXT)])) in
  from_service_name service_name store w =
  (if String.eqb (suffix p) ".enc" then Return p else Raise InvalidFilenameErr, w).
Proof. exact (from_service_name_relative service_name store w). Qed.

Lemma from_service_name_appends_components_witness :
  from_service_name "mail/../../work" demo.store demo.store_world =
  (Return (mkPath "/" ["/"; "s"; "mail"; ".."; ".."; "work.enc"]), demo.store_world).
Proof.
  exact (from_service_name_appends_components "mail/../../work" demo.store
           demo.store_world eq_refl eq_refl ltac:(discriminate) eq_refl).
Defined.

Lemma parse_plain_string k :
  k <> "" -> pystr.contains sep k = false -> String.eqb k "." = false ->
  _parse_args [AStr k] = mkPath "" [k].
Proof.
  intros Hne Hc Hdot. unfold _parse_args, parse_parts. simpl.
  assert (Hn : pystr.nonempty k = true) by (destruct k; [congruence | reflexivity]).
  rewrite Hn. simpl.
  assert (Hs : pystr.startswith sep k = false).
  { destruct (pystr.startswith sep k) eqn:E; [|reflexivity].
    apply startswith_contains in E. congruence. }
  rewrite (splitroot_relative _ Hs), Hc. unfold keep_component.
  rewrite Hn, Hdot. reflexivity.
Qed.

Lemma enc_name_not_dot n : n <> "" -> String.eqb (n +:+ ".enc") "." = false.
Proof.
  intros Hn. apply String.eqb_neq. intros Heq.
  apply (f_equal String.length) in Heq. rewrite length_append in Heq.
  simpl in Heq. lia.
Qed.

Lemma enc_name_not_dotdot n : String.eqb (n +:+ ".enc") ".." = false.
Proof.
  apply String.eqb_neq. intros Heq.
  apply (f_equal String.length) in Heq. rewrite length_append in Heq.
  simpl in Heq. lia.
Qed.

(** X2.  For a service name without a slash, the password file is the
    store's path with the one component [service_name + ".enc"] appended,
    construction succeeds, and when the store is a directory the path
    resolves to an entry directly inside it. *)
Theorem from_service_name_plain_name (service_name : string)
    (store : PurePath) (w : World) :
  parse_parts (_parts store) = store -> is_absolute store = true ->
  service_name <> "" -> pystr.contains sep service_name = false ->
  let p := mkPath (_root store) (_parts store ++ [service_name +:+ ".enc"]) in
  from_service_name service_name store w = (Return p, w)
  /\ forall ks, resolve w store = inr ks ->
                lookup_node (w_fs w) ks = Some NDir ->
                resolve w p = inr (ks ++ [service_name +:+ ".enc"]).
Proof.
  intros Hstore Habs Hne Hc p.
  assert (Hrel : pystr.startswith sep service_name = false).
  { destruct (pystr.startswith sep service_name) eqn:E; [|reflexivity].
    apply startswith_contains in E. congruence. }
  assert (Hparts : _parts store <> []).
  { destruct (fixed_is_parsed store Hstore) as [Hp _].
    unfold parsed_path in Hp. unfold is_absolute in Habs. rewrite Habs in Hp.
    destruct Hp as [rest [-> _]]. discriminate. }
  split.
  - rewrite (from_service_name_relative _ _ w Hstore Habs Hne Hrel). cbv zeta.
    unfold PASSWD_FILE_EXT. rewrite parse_plain_string.
    + cbn [_parts]. fold p. unfold p.
      rewrite suffix_of_enc_name by assumption. reflexivity.
    + intros Heq. apply (f_equal String.length) in Heq.
      rewrite length_append in Heq. simpl in Heq. lia.
    + rewrite contains_append, Hc. reflexivity.
    + apply enc_name_not_dot. exact Hne.
  - intros ks Hr Hdir. unfold resolve, components in *.
    unfold p, is_absolute in *. cbn [_root _parts]. rewrite Habs in *.
    destruct (_parts store) as [|r rest]; [congruence|]. cbn [tail app] in *.
    rewrite walk_app, Hr. simpl. rewrite Hdir, enc_name_not_dotdot. reflexivity.
Qed.

Lemma from_service_name_plain_name_witness :
  from_service_name "email" demo.store demo.store_world =
    (Return demo.email, demo.store_world)
  /\ resolve demo.store_world demo.email = inr ["s"; "email.enc"].
Proof.
  pose proof (from_service_name_plain_name "email" demo.store demo.store_world
                eq_refl eq_refl ltac:(discriminate) eq_refl) as Hx.
  cbv zeta in Hx. split.
  - exact (proj1 Hx).
  - exact (proj2 Hx ["s"] eq_refl eq_refl).
Defined.

(** X3.  A service name that starts with a slash makes the store
    irrelevant: from_service_name builds the password file from
    [service_name + ".enc"] alone. *)
Theorem from_service_name_rooted_name_ignores_store (service_name : string)
    (store : PurePath) (w : World) :
  pystr.startswith sep service_name = true ->
  from_service_name service_name store w
  = PasswdFile [AStr (service_name +:+ PASSWD_FILE_EXT)] w.
Proof.
  intros Hs.
  assert (Hne : service_name <> "") by (intros ->; discriminate).
  unfold from_service_name. rewrite (nonempty_length _ Hne).
  unfold PasswdFile.
  set (key := service_name +:+ PASSWD_FILE_EXT).
  assert (Hroot : pystr.nonempty (_root (_parse_args [AStr key])) = true).
  { apply parse_rooted_string. unfold key.
    rewrite startswith_append by exact Hne. exact Hs. }
  assert (Hjoin : truediv store key = _parse_args [AStr key]).
  { unfold truediv, join_parsed_parts. rewrite Hroot. reflexivity. }
  apply construct_congr. rewrite Hjoin. apply parse_path_argument.
  rewrite parse_single_string. apply parse_parts_idempotent.
Qed.

Lemma from_service_name_rooted_name_ignores_store_witness :
  from_service_name "/etc/cron" demo.store demo.store_world =
  (Return (mkPath "/" ["/"; "etc"; "cron.enc"]), demo.store_world).
Proof.
  rewrite (from_service_name_rooted_name_ignores_store "/etc/cron" demo.store
             demo.store_world eq_refl).
  reflexivity.
Defined.

(** The password file of a service name without a slash. *)
Lemma from_service_name_plain_path service_name store w :
  parse_parts (_parts store) = store -> is_absolute store = true ->
  service_name <> "" -> pystr.contains sep service_name = false ->
  from_service_name service_name store w
  = (Return (mkPath (_root store) (_parts store ++ [service_name +:+ ".enc"])), w).
Proof.
  intros Hstore Habs Hne Hc.
  assert (Hrel : pystr.startswith sep service_name = false).
  { destruct (pystr.startswith sep service_name) eqn:E; [|reflexivity].
    apply startswith_contains in E. congruence. }
  assert (Hparts : _parts store <> []).
  { destruct (fixed_is_parsed store Hstore) as [Hp _].
    unfold parsed_path in Hp. unfold is_absolute in Habs. rewrite Habs in Hp.
    destruct Hp as [rest [-> _]]. discriminate. }
  rewrite (from_service_name_relative _ _ w Hstore Habs Hne Hrel). cbv zeta.
  unfold PASSWD_FILE_EXT. rewrite parse_plain_string.
  - cbn [_parts]. rewrite suffix_of_enc_name by assumption. reflexivity.
  - intros Heq. apply (f_equal String.length) in Heq.
    rewrite length_append in Heq. simpl in Heq. lia.
  - rewrite contains_append, Hc. reflexivity.
  - apply enc_name_not_dot. exact Hne.
Qed.

(** X4.  For a service name that is a single path component, the password
    file that from_service_name returns, stripped of its extension, is
    [store / service_name]. *)
Theorem with_suffix_recovers_service_name (service_name : string)
    (store : PurePath) (w : World) :
  parse_parts (_parts store) = store -> is_absolute store = true ->
  service_name <> "" -> pystr.contains sep service_name = false ->
  service_name <> "." ->
  let p := mkPath (_root store) (_parts store ++ [service_name +:+ ".enc"]) in
  from_service_name service_name store w = (Return p, w)
  /\ with_suffix p "" = Return (truediv store service_name).
Proof.
  intros Hstore Habs Hne Hc Hdot p.
  split; [apply from_service_name_plain_path; assumption|]. unfold p. clear p.
  assert (Hparts : _parts store <> []).
  { destruct (fixed_is_parsed store Hstore) as [Hp _].
    unfold parsed_path in Hp. unfold is_absolute in Habs. rewrite Habs in Hp.
    destruct Hp as [rest [-> _]]. discriminate. }
  assert (Hname : name (mkPath (_root store)
                          (_parts store ++ [service_name +:+ ".enc"]))
                  = service_name +:+ ".enc").
  { unfold name. cbn [_parts _root]. rewrite length_app. cbn [length].
    destruct (_parts store) as [|x parts]; [congruence|]. cbn [length].
    replace (_ =? _)%nat with false
      by (symmetry; apply Nat.eqb_neq; destruct (pystr.nonempty (_root store)); lia).
    apply List.last_last. }
  unfold with_suffix. cbn [pystr.contains pystr.nonempty andb orb String.eqb].
  rewrite Hname, nonempty_append by exact Hne. cbn [negb].
  rewrite suffix_of_enc_name by assumption. cbn [pystr.nonempty negb].
  cbn [_root _parts]. rewrite removelast_last.
  rewrite length_append. simpl String.length.
  replace (String.length service_name + 4 - 4)%nat with (String.length service_name)
    by lia.
  rewrite take_append, append_empty_r.
  unfold truediv, join_parsed_parts.
  rewrite parse_plain_string;
    [reflexivity | exact Hne | exact Hc | apply String.eqb_neq; exact Hdot].
Qed.

Lemma with_suffix_recovers_service_name_witness :
  from_service_name "email" demo.store demo.store_world
  = (Return demo.email, demo.store_world)
  /\ with_suffix demo.email "" = Return (truediv demo.store "email").
Proof.
  exact (with_suffix_recovers_service_name "email" demo.store demo.store_world
           eq_refl eq_refl ltac:(discriminate) eq_refl ltac:(discriminate)).
Defined.

(** X5.  A path that one of the three constructors returned is returned
    unchanged when it is passed to the same constructor again, in any world,
    whatever the working directory has become. *)
Theorem constructed_path_reconstructs (args : list arg) (w w' : World)
    (p : PurePath) :
  (PublicKeyFile args w = (Return p, w) ->
   PublicKeyFile [APath p] w' = (Return p, w'))
  /\ (SecretKeyFile args w = (Return p, w) ->
      SecretKeyFile [APath p] w' = (Return p, w'))
  /\ (PasswdFile args w = (Return p, w) ->
      PasswdFile [APath p] w' = (Return p, w')).
Proof.
  assert (Hgen : forall init,
             construct init args w = (Return p, w) ->
             construct init [APath p] w' = (Return p, w')).
  { intros init Hc.
    destruct (construct_returns _ _ _ _ _ Hc) as [_ [Hi [Hfix [Habs _]]]].
    rewrite construct_absolute
      by (rewrite (parse_path_argument _ Hfix); exact Habs).
    rewrite (parse_path_argument _ Hfix), Hi. reflexivity. }
  repeat split; apply Hgen.
Qed.

Lemma constructed_path_reconstructs_witness :
  PublicKeyFile [APath demo.alice_pub] demo.empty_world
  = (Return demo.alice_pub, demo.empty_world).
Proof.
  exact (proj1 (constructed_path_reconstructs [AStr "/s/alice.pub"]
                  demo.store_world demo.empty_world demo.alice_pub)
           eq_refl).
Defined.

(** ** Writing and reading key files *)

Lemma resolve_same_disk w1 w2 p :
  w_fs w1 = w_fs w2 -> w_cwd w1 = w_cwd w2 -> resolve w1 p = resolve w2 p.
Proof.
  intros Hfs Hcwd. unfold resolve, components. rewrite Hfs, Hcwd. reflexivity.
Qed.

(** [PublicKeyFile.write] as the prompt followed by the three steps that
    touch the disk and the message. *)
Lemma PublicKeyFile_write_eq self key (confirm announce : bool) w :
  PublicKeyFile_write self key confirm announce w =
  ((let* present := Path_exists self in
    if confirm && present then
      try_except
        (click_confirm ("file " +:+ str self +:+ " already EXISTS! Overwrite?") >>
         ret tt)
        on_abort
    else ret tt) >>
   Path_mkdir (parent self) true >>
   with_open_wb self (lift_outcome (nacl.encode key)) >>
   if announce
   then click_echo ("public key file written at " +:+ str self) false
   else ret tt) w.
Proof. reflexivity. Qed.

(** When no prompt is due or the user says yes, the prompt step returns
    and leaves the disk alone. *)
Lemma confirm_step_proceeds self (confirm : bool) w :
  confirm = false \/ (exists rest, w_answers w = true :: rest) ->
  exists w1,
    (let* present := Path_exists self in
     if confirm && present then
       try_except
         (click_confirm ("file " +:+ str self +:+ " already EXISTS! Overwrite?") >>
          ret tt)
         on_abort
     else ret tt) w = (Return tt, w1)
    /\ w_fs w1 = w_fs w /\ w_cwd w1 = w_cwd w /\ w_seed w1 = w_seed w.
Proof.
  intros Hgo. unfold bind. rewrite Path_exists_eq.
  destruct Hgo as [-> | [rest Hrest]].
  - cbn [andb]. eexists. split; [reflexivity|]. repeat split.
  - destruct (confirm && _).
    + unfold try_except, click_confirm, modify, bind. simpl. rewrite Hrest.
      eexists. split; [reflexivity|]. repeat split.
    + eexists. split; [reflexivity|]. repeat split.
Qed.

(** When the file exists, a prompt is due and the user does not say yes,
    the prompt step ends the process with status 0. *)
Lemma confirm_step_declined self w n :
  stat w self = inr n ->
  w_answers w = [] \/ (exists rest, w_answers w = false :: rest) ->
  exists w1,
    (let* present := Path_exists self in
     if true && present then
       try_except
         (click_confirm ("file " +:+ str self +:+ " already EXISTS! Overwrite?") >>
          ret tt)
         on_abort
     else ret tt) w = (Raise (SystemExit 0), w1)
    /\ w_fs w1 = w_fs w /\ w_cwd w1 = w_cwd w /\ w_seed w1 = w_seed w
    /\ w_trace w1 = w_trace w
                    ++ [Prompt ("file " +:+ str self +:+ " already EXISTS! Overwrite?");
                        Echo false "Operation Cancelled! Aborting..."].
Proof.
  intros Hst Hno. unfold bind. rewrite Path_exists_eq, Hst. cbn [andb].
  unfold try_except, click_confirm, modify, bind, on_abort. simpl.
  destruct Hno as [Hno | [rest Hno]]; rewrite Hno; simpl;
    eexists; (split; [reflexivity|]); simpl; rewrite <- app_assoc;
    repeat split.
Qed.

(** How a call of [PublicKeyFile.write] can end: it fails before the file
    is opened and every file on disk is as before; or the object has no
    [encode] and the file is left empty; or it returns and the file holds
    the encoded key. *)
Lemma PublicKeyFile_write_cases self key confirm announce w :
  let res := PublicKeyFile_write self key confirm announce w in
  (exists e, fst res = Raise e
     /\ forall p raw, stat w p = inr (NFile raw) -> stat (snd res) p = inr (NFile raw))
  \/ (exists e, nacl.encode key = Raise e /\ fst res = Raise e
        /\ stat (snd res) self = inr (NFile []))
  \/ (exists raw, nacl.encode key = Return raw /\ fst res = Return tt
        /\ stat (snd res) self = inr (NFile raw)).
Proof.
  intros res. remember res as v eqn:Hres. unfold res in Hres. clear res.
  rewrite PublicKeyFile_write_eq in Hres.
  match type of Hres with
  | _ = bind ?c _ _ => set (step := c) in Hres
  end.
  destruct (confirm_step_disk self confirm w) as [Hfs [Hcwd [_ _]]].
  fold step in Hfs, Hcwd.
  destruct (step w) as [r1 w1] eqn:E1. simpl in Hfs, Hcwd.
  assert (Hst1 : forall p, stat w1 p = stat w p)
    by (intros p; apply stat_same_disk; assumption).
  destruct r1 as [[]|e].
  2: { rewrite (bind_raise _ _ _ _ _ E1) in Hres. subst v. left. exists e.
       simpl. split; [reflexivity|]. intros p raw. rewrite Hst1. auto. }
  rewrite (bind_eval _ _ _ _ _ E1) in Hres. cbv beta in Hres.
  assert (Hmk : exists r2 w2,
             Path_mkdir (parent self) true w1 = (r2, w2)
             /\ forall p raw, stat w p = inr (NFile raw) ->
                              stat w2 p = inr (NFile raw)).
  { destruct (Path_mkdir_cases (parent self) w1) as [[r2 E2]|[k [Hk E2]]].
    - exists r2, w1. split; [exact E2|]. intros p raw. rewrite Hst1. auto.
    - exists (Return tt), (set_fs (insert k NDir) w1). split; [exact E2|].
      intros p raw Hs. apply stat_insert_dir; [exact Hk|]. rewrite Hst1. exact Hs. }
  destruct Hmk as [r2 [w2 [E2 Hst2]]].
  destruct r2 as [[]|e].
  2: { rewrite (bind_raise _ _ _ _ _ E2) in Hres. subst v. left. exists e.
       simpl. split; [reflexivity | exact Hst2]. }
  rewrite (bind_eval _ _ _ _ _ E2) in Hres. cbv beta in Hres.
  destruct (nacl.encode key) as [raw|e] eqn:Ek.
  - change (lift_outcome (Return raw)) with (@ret World bytes raw) in Hres.
    destruct (with_open_wb_cases self raw w2) as [[e E3]|[k [Hr3 [Hk3 E3]]]].
    + rewrite (bind_raise _ _ _ _ _ E3) in Hres. subst v. left. exists e.
      simpl. split; [reflexivity | exact Hst2].
    + rewrite (bind_eval _ _ _ _ _ E3) in Hres. cbv beta in Hres.
      right. right. exists raw. split; [reflexivity|].
      pose proof (stat_after_write self raw w2 k Hr3 Hk3) as Hst3.
      destruct announce; subst v; simpl; split; (reflexivity || exact Hst3).
  - unfold with_open_wb in Hres.
    destruct (resolve w2 self) as [e'|k] eqn:Er.
    { erewrite bind_raise in Hres
        by (apply bind_raise; rewrite write_file_eq, Er; reflexivity).
      subst v. left. eexists. simpl. split; [reflexivity | exact Hst2]. }
    destruct (lookup_node (w_fs w2) k) as [[d|]|] eqn:El.
    2: { erewrite bind_raise in Hres
           by (apply bind_raise; rewrite write_file_eq, Er, El; reflexivity).
         subst v. left. eexists. simpl. split; [reflexivity | exact Hst2]. }
    all: assert (Hk : lookup_node (w_fs w2) k <> Some NDir) by congruence;
      erewrite bind_raise in Hres
        by (erewrite bind_eval
              by (rewrite write_file_eq, Er, El; reflexivity);
            reflexivity);
      subst v; right; left; exists e; split; [reflexivity|];
      split; [reflexivity|]; simpl; apply stat_after_write; assumption.
Qed.

(** X6.  After a PublicKeyFile.write that returned, retrieve reads back
    what was written: it returns [PublicKey] of the encoded key, which for a
    32-byte public key is the key itself, and leaves the world as it is. *)
Theorem PublicKeyFile_write_then_retrieve (self : PurePath) (key : pyobj)
    (raw : bytes) (confirm announce : bool) (w w' : World) :
  nacl.encode key = Return raw ->
  PublicKeyFile_write self key confirm announce w = (Return tt, w') ->
  PublicKeyFile_retrieve self w' = (nacl.PublicKey raw, w')
  /\ (length raw = nacl.SIZE ->
      PublicKeyFile_retrieve self w' = (Return (OPublicKey raw), w')).
Proof.
  intros Hk Hw.
  pose proof (PublicKeyFile_write_cases self key confirm announce w) as Hc.
  cbv zeta in Hc. rewrite Hw in Hc. simpl in Hc.
  destruct Hc as [[e [He _]] | [[e [_ [He _]]] | [raw' [Hk' [_ Hst]]]]];
    try discriminate.
  rewrite Hk in Hk'. inversion Hk'; subst raw'.
  assert (Hr : PublicKeyFile_retrieve self w' = (nacl.PublicKey raw, w')).
  { unfold PublicKeyFile_retrieve, bind, lift_outcome.
    rewrite Path_exists_eq, Hst. cbn [negb]. unfold ret, read_file.
    cbn beta iota. rewrite Hst. destruct (nacl.PublicKey raw); reflexivity. }
  split; [exact Hr|]. intros Hlen. rewrite Hr. unfold nacl.PublicKey.
  rewrite Hlen, Nat.eqb_refl. reflexivity.
Qed.

Lemma PublicKeyFile_write_then_retrieve_witness :
  PublicKeyFile_retrieve demo.alice_pub
    (snd (PublicKeyFile_write demo.alice_pub (OPublicKey demo.public_key)
            true true demo.store_world))
  = (Return (OPublicKey demo.public_key),
     snd (PublicKeyFile_write demo.alice_pub (OPublicKey demo.public_key)
            true true demo.store_world)).
Proof.
  exact (proj2 (PublicKeyFile_write_then_retrieve demo.alice_pub
                  (OPublicKey demo.public_key) demo.public_key true true
                  demo.store_world _ eq_refl eq_refl) eq_refl).
Defined.

(** X7.  An object without [encode], such as [bytes], never gets written:
    PublicKeyFile.write raises in every world, and so the block under
    [if __name__ == "__main__"], which passes [bytes], never reaches its
    [print]. *)
Theorem main_never_prints (home : PurePath) (w : World) :
  (forall self confirm announce b,
     exists e, fst (PublicKeyFile_write self (OBytes b) confirm announce w)
               = Raise e)
  /\ exists e, fst (main home w) = Raise e.
Proof.
  assert (Hwrite : forall self confirm announce b w0,
            exists e, fst (PublicKeyFile_write self (OBytes b) confirm announce w0)
                      = Raise e).
  { intros self confirm announce b w0.
    destruct (PublicKeyFile_write_cases self (OBytes b) confirm announce w0)
      as [[e [He _]] | [[e [_ [He _]]] | [raw [Hk _]]]].
    - exists e. exact He.
    - exists e. exact He.
    - simpl in Hk. discriminate. }
  split; [intros; apply Hwrite|].
  unfold main. unfold bind at 1.
  destruct (PublicKeyFile _ w) as [[a|e] w1]; [|exists e; reflexivity].
  unfold bind.
  destruct (Hwrite a true true (list_byte_of_string "someshit") w1) as [e He].
  destruct (PublicKeyFile_write a _ true true w1) as [r w2]. simpl in He.
  subst r. exists e. reflexivity.
Qed.

(** An existing entry [/d1/.../dn/nm] sits in an existing directory. *)
Lemma under_exists_parent dcomps nm w n :
  nm <> ".." ->
  stat w (under dcomps nm) = inr n ->
  exists kd, walk (w_fs w) [] dcomps = inr kd
             /\ lookup_node (w_fs w) kd = Some NDir
             /\ resolve w (under dcomps nm) = inr (kd ++ [nm])
             /\ lookup_node (w_fs w) (kd ++ [nm]) = Some n.
Proof.
  intros Hdots Hst. unfold stat in Hst. rewrite resolve_under in *.
  assert (Hnm : String.eqb nm ".." = false) by (apply String.eqb_neq; exact Hdots).
  destruct (walk (w_fs w) [] dcomps) as [e|kd] eqn:Ew; [discriminate|].
  simpl in *. destruct (lookup_node (w_fs w) kd) as [[d|]|] eqn:El;
    try discriminate.
  rewrite Hnm in *.
  destruct (lookup_node (w_fs w) (kd ++ [nm])) as [n'|] eqn:En; [|discriminate].
  inversion Hst; subst n'. exists kd. repeat split; assumption || reflexivity.
Qed.

(** X8.  Writing an object that has no [encode] to an existing public key
    file raises the attribute error only after the file has been opened:
    the old key is gone and the file is left empty. *)
Theorem write_of_non_key_empties_file (dcomps : list string) (nm : string)
    (key : pyobj) (e : exn) (old : bytes) (announce : bool) (w : World) :
  nacl.encode key = Raise e ->
  nm <> ".." ->
  stat w (under dcomps nm) = inr (NFile old) ->
  let res := PublicKeyFile_write (under dcomps nm) key false announce w in
  fst res = Raise e
  /\ read_file (under dcomps nm) (snd res) = (Return [], snd res).
Proof.
  intros Hk Hdots Hst res.
  destruct (under_exists_parent dcomps nm w _ Hdots Hst)
    as [kd [Hw [Hkd [Hr Hl]]]].
  assert (Hres : res = (Raise e,
                        set_fs (insert (kd ++ [nm]) (NFile [])) w)).
  { unfold res. rewrite PublicKeyFile_write_eq.
    erewrite bind_eval by reflexivity. cbv beta.
    erewrite bind_eval
      by (apply Path_mkdir_existing with (k := kd);
          [rewrite resolve_parent_under; exact Hw | exact Hkd]).
    cbv beta. apply bind_raise. unfold with_open_wb.
    erewrite bind_eval by (rewrite write_file_eq, Hr, Hl; reflexivity).
    cbv beta. rewrite Hk. reflexivity. }
  rewrite Hres. simpl. split; [reflexivity|].
  rewrite read_file_eq, (stat_after_write _ _ _ _ Hr) by congruence.
  reflexivity.
Qed.

Lemma write_of_non_key_empties_file_witness :
  read_file (under ["s"] "alice.pub")
    (snd (PublicKeyFile_write (under ["s"] "alice.pub")
            (OBytes (list_byte_of_string "someshit")) false false
            (snd (PublicKeyFile_write demo.alice_pub (OPublicKey demo.public_key)
                    false false demo.store_world))))
  = (Return [],
     snd (PublicKeyFile_write (under ["s"] "alice.pub")
            (OBytes (list_byte_of_string "someshit")) false false
            (snd (PublicKeyFile_write demo.alice_pub (OPublicKey demo.public_key)
                    false false demo.store_world)))).
Proof.
  exact (proj2 (write_of_non_key_empties_file ["s"] "alice.pub"
                  (OBytes (list_byte_of_string "someshit")) AttributeError
                  demo.public_key false
                  (snd (PublicKeyFile_write demo.alice_pub
                          (OPublicKey demo.public_key) false false
                          demo.store_world))
                  eq_refl ltac:(discriminate) eq_refl)).
Defined.

(** X9.  A public key file that exists is overwritten when no
    confirmation is asked for, or when the user answers yes: the call
    returns and the file holds the new key. *)
Theorem PublicKeyFile_write_overwrites (dcomps : list string) (nm : string)
    (key : pyobj) (raw old : bytes) (confirm announce : bool) (w : World) :
  nacl.encode key = Return raw ->
  nm <> ".." ->
  stat w (under dcomps nm) = inr (NFile old) ->
  confirm = false \/ (exists rest, w_answers w = true :: rest) ->
  let res := PublicKeyFile_write (under dcomps nm) key confirm announce w in
  fst res = Return tt
  /\ read_file (under dcomps nm) (snd res) = (Return raw, snd res).
Proof.
  intros Hk Hdots Hst Hgo res.
  destruct (confirm_step_proceeds (under dcomps nm) confirm w Hgo)
    as [w1 [E1 [Hfs [Hcwd _]]]].
  assert (Hst1 : stat w1 (under dcomps nm) = inr (NFile old))
    by (rewrite <- Hst; apply stat_same_disk; assumption).
  destruct (under_exists_parent dcomps nm w1 _ Hdots Hst1)
    as [kd [Hw [Hkd [Hr Hl]]]].
  assert (Hres : exists w2, res = (Return tt, w2)
                            /\ stat w2 (under dcomps nm) = inr (NFile raw)).
  { unfold res. rewrite PublicKeyFile_write_eq.
    rewrite (bind_eval _ _ _ _ _ E1). cbv beta.
    erewrite bind_eval
      by (apply Path_mkdir_existing with (k := kd);
          [rewrite resolve_parent_under; exact Hw | exact Hkd]).
    cbv beta. rewrite Hk.
    change (lift_outcome (Return raw)) with (@ret World bytes raw).
    erewrite bind_eval by (apply with_open_wb_ret; [exact Hr | congruence]).
    cbv beta.
    assert (Hst2 : stat (set_fs (insert (kd ++ [nm]) (NFile raw)) w1)
                     (under dcomps nm) = inr (NFile raw))
      by (apply stat_after_write; [exact Hr | congruence]).
    destruct announce; eexists; (split; [reflexivity | exact Hst2]). }
  destruct Hres as [w2 [Hres Hst2]]. rewrite Hres. simpl.
  split; [reflexivity|]. rewrite read_file_eq, Hst2. reflexivity.
Qed.

Lemma PublicKeyFile_write_overwrites_witness :
  fst (PublicKeyFile_write (under ["s"] "alice.pub")
         (OPublicKey (List.repeat x03 32)) false false
         (snd (PublicKeyFile_write demo.alice_pub (OPublicKey demo.public_key)
                 false false demo.store_world)))
  = Return tt.
Proof.
  exact (proj1 (PublicKeyFile_write_overwrites ["s"] "alice.pub"
                  (OPublicKey (List.repeat x03 32)) (List.repeat x03 32)
                  demo.public_key false false
                  (snd (PublicKeyFile_write demo.alice_pub
                          (OPublicKey demo.public_key) false false
                          demo.store_world))
                  eq_refl ltac:(discriminate) eq_refl (or_introl eq_refl))).
Defined.

Section Overwrite.
Context `{Crypto}.

(** X10.  When the key file exists, confirmation is asked for and the user
    does not answer yes (a no, or the end of the input), both write methods
    end the process with [exit(0)] after the prompt and the message
    [Operation Cancelled! Aborting...]: the disk is untouched, nothing has
    been drawn from the random source, and the memoized container of the
    secret key file is what it was. *)
Theorem overwrite_declined (self : PurePath) (key : pyobj) (mp : string)
    (announce : bool) (w : World) (cache : option PassEncryptedMessage)
    (n : node) :
  stat w self = inr n ->
  w_answers w = [] \/ (exists rest, w_answers w = false :: rest) ->
  let written := PublicKeyFile_write self key true announce w in
  let written_encrypted :=
    SecretKeyFile_write_encrypted self key mp true announce (mkProcess w cache) in
  let said :=
    [Prompt ("file " +:+ str self +:+ " already EXISTS! Overwrite?");
     Echo false "Operation Cancelled! Aborting..."] in
  fst written = Raise (SystemExit 0)
  /\ w_fs (snd written) = w_fs w
  /\ w_trace (snd written) = w_trace w ++ said
  /\ fst written_encrypted = Raise (SystemExit 0)
  /\ w_fs (world (snd written_encrypted)) = w_fs w
  /\ w_seed (world (snd written_encrypted)) = w_seed w
  /\ w_trace (world (snd written_encrypted)) = w_trace w ++ said
  /\ cached (snd written_encrypted) = cache.
Proof.
  intros Hst Hno written written_encrypted said.
  destruct (confirm_step_declined self w n Hst Hno)
    as [w1 [E1 [Hfs [Hcwd [Hseed Htrace]]]]].
  assert (Hw : written = (Raise (SystemExit 0), w1)).
  { unfold written. rewrite PublicKeyFile_write_eq.
    apply bind_raise. exact E1. }
  assert (He : written_encrypted
               = (Raise (SystemExit 0), mkProcess w1 cache)).
  { unfold written_encrypted, SecretKeyFile_write_encrypted.
    apply bind_raise. apply (in_world_eval _ (mkProcess w cache)). exact E1. }
  rewrite Hw, He. simpl. repeat split; assumption.
Qed.

End Overwrite.

Lemma overwrite_declined_witness :
  fst (PublicKeyFile_write demo.alice_pub (OPublicKey (List.repeat x03 32))
         true true
         (snd (PublicKeyFile_write demo.alice_pub (OPublicKey demo.public_key)
                 false false demo.store_world)))
  = Raise (SystemExit 0).
Proof.
  exact (proj1 (overwrite_declined demo.alice_pub
                  (OPublicKey (List.repeat x03 32)) demo.master_passwd true
                  (snd (PublicKeyFile_write demo.alice_pub
                          (OPublicKey demo.public_key) false false
                          demo.store_world))
                  None (NFile demo.public_key) eq_refl (or_introl eq_refl))).
Defined.

(** ** Password files *)

Section PasswordFiles.
Context `{Crypto}.

(** How a call of write_passwd can end: it raises and the disk is as
    before, or it returns and the file, which was not there, holds the
    sealed password. *)
Lemma write_passwd_cases self passwd key w :
  let res := write_passwd self passwd key w in
  (exists e, fst res = Raise e /\ w_fs (snd res) = w_fs w
             /\ w_cwd (snd res) = w_cwd w)
  \/ (exists box plain e,
        nacl.SealedBox_init key = Return box
        /\ utf8_encode passwd = Return plain
        /\ stat w self = inl e
        /\ fst res = Return tt
        /\ stat (snd res) self
           = inr (NFile (crypto_box_seal (w_seed w) plain (nacl._public_key box)))).
Proof.
  intros res. remember res as v eqn:Hres. unfold res in Hres. clear res.
  unfold write_passwd in Hres.
  erewrite bind_eval in Hres by reflexivity. cbv beta in Hres.
  destruct (stat w self) as [e0|n] eqn:Est.
  2: { subst v. left. eexists. simpl. repeat split. }
  erewrite bind_eval in Hres by reflexivity. cbv beta in Hres.
  destruct (nacl.SealedBox_init key) as [box|e] eqn:Eb.
  2: { subst v. left. exists e. simpl. repeat split. }
  erewrite bind_eval in Hres by reflexivity. cbv beta in Hres.
  destruct (utf8_encode passwd) as [plain|e] eqn:Ep.
  2: { subst v. left. exists e. simpl. repeat split. }
  erewrite bind_eval in Hres by reflexivity. cbv beta in Hres.
  erewrite bind_eval in Hres by reflexivity. cbv beta in Hres.
  set (w1 := set_seed (N.succ (w_seed w)) w) in Hres.
  set (c := crypto_box_seal (w_seed w) plain (nacl._public_key box)) in Hres.
  destruct (with_open_wb_cases self c w1) as [[e E3]|[k [Hr3 [Hk3 E3]]]].
  - rewrite E3 in Hres. subst v. left. exists e. simpl. repeat split.
  - rewrite E3 in Hres. subst v. right. exists box, plain, e0.
    repeat split. simpl. apply stat_after_write; assumption.
Qed.

(** X11.  write_passwd is a one-shot create: once it has returned, the
    file holds the sealed box of the encoded password, and every further
    write_passwd on the path, with whatever password and key, raises
    PasswdFileExistsErr and changes nothing. *)
Theorem write_passwd_only_once (self : PurePath) (passwd : string)
    (key : pyobj) (w w1 : World) :
  write_passwd self passwd key w = (Return tt, w1) ->
  (exists box plain,
     nacl.SealedBox_init key = Return box
     /\ utf8_encode passwd = Return plain
     /\ read_file self w1
        = (Return (crypto_box_seal (w_seed w) plain (nacl._public_key box)), w1))
  /\ forall passwd' key',
       write_passwd self passwd' key' w1 = (Raise PasswdFileExistsErr, w1).
Proof.
  intros Hw.
  pose proof (write_passwd_cases self passwd key w) as Hc.
  cbv zeta in Hc. rewrite Hw in Hc. simpl in Hc.
  destruct Hc as [[e [He _]] | [box [plain [e [Hb [Hp [_ [_ Hst]]]]]]]];
    [discriminate|].
  split.
  - exists box, plain. repeat split; try assumption.
    rewrite read_file_eq, Hst. reflexivity.
  - intros passwd' key'. unfold write_passwd.
    erewrite bind_eval by (rewrite Path_exists_eq, Hst; reflexivity).
    reflexivity.
Qed.

(** X12.  write_passwd makes no directory and leaves no partial file: when
    the path cannot be resolved, because a directory on the way to it is
    missing or is a file, the call raises; and whenever the call raises, the
    disk is exactly what it was. *)
Theorem write_passwd_failure_leaves_disk (self : PurePath) (passwd : string)
    (key : pyobj) (w : World) :
  (forall err, resolve w self = inl err ->
               exists e, fst (write_passwd self passwd key w) = Raise e)
  /\ (forall e, fst (write_passwd self passwd key w) = Raise e ->
                w_fs (snd (write_passwd self passwd key w)) = w_fs w).
Proof.
  pose proof (write_passwd_cases self passwd key w) as Hc. cbv zeta in Hc.
  split.
  - intros err Hr.
    destruct Hc as [[e [He _]] | [box [plain [e [_ [_ [_ [_ Hst]]]]]]]].
    + exists e. exact He.
    + exfalso.
      destruct (write_passwd self passwd key w) as [r w1] eqn:Ew.
      simpl in Hst.
      assert (Hfs : exists k, resolve w1 self = inr k).
      { unfold stat in Hst. destruct (resolve w1 self) as [e1|k]; [discriminate|].
        exists k. reflexivity. }
      destruct Hfs as [k Hk].
      unfold write_passwd, bind in Ew. rewrite Path_exists_eq in Ew.
      unfold stat in Ew. rewrite Hr in Ew. cbn [negb] in Ew.
      unfold ret at 1 in Ew. unfold lift_outcome in Ew.
      destruct (nacl.SealedBox_init key); [|inversion Ew; subst; congruence].
      destruct (utf8_encode passwd); [|inversion Ew; subst; congruence].
      unfold nacl.encrypt, bind, draw, ret in Ew.
      rewrite with_open_wb_unresolved with (e := err) in Ew by exact Hr.
      inversion Ew; subst. simpl in Hk. unfold resolve in Hk, Hr. simpl in Hk.
      unfold components in *. simpl in Hk. congruence.
  - intros e He.
    destruct Hc as [[e' [_ [Hfs _]]] | [box [plain [e' [_ [_ [_ [Hr _]]]]]]]].
    + exact Hfs.
    + rewrite He in Hr. discriminate.
Qed.

(** X13.  Reading never writes: retrieve_passwd leaves the whole world as
    it is in every case, and the retrieve methods of the two key files and
    the memoized property leave the disk as it is. *)
Theorem reads_leave_disk (self : PurePath) (key : pyobj) (mp : string)
    (w : World) (s : Process PassEncryptedMessage) :
  snd (retrieve_passwd self key w) = w
  /\ w_fs (snd (PublicKeyFile_retrieve self w)) = w_fs w
  /\ w_fs (world (snd (encrypted_file_bytes self s))) = w_fs (world s)
  /\ w_fs (world (snd (SecretKeyFile_retrieve self mp s))) = w_fs (world s).
Proof.
  assert (Hprop : forall s0,
            w_fs (world (snd (encrypted_file_bytes self s0))) = w_fs (world s0)).
  { intros s0.
    destruct (encrypted_file_bytes_cases self s0)
      as [[c [_ He]] | [[_ [raw [c [_ [_ He]]]]] | [_ [e [w' [He [Hfs _]]]]]]];
      rewrite He; simpl; [reflexivity | reflexivity | exact Hfs]. }
  split; [|split; [|split]].
  - unfold retrieve_passwd, bind, raise, ret, lift_outcome.
    rewrite Path_exists_eq.
    destruct (stat w self) as [e|[d|]] eqn:Est; cbn [negb];
      unfold read_file; rewrite ?Est; try reflexivity.
    destruct (nacl.SealedBox_init key); [|reflexivity].
    destruct (nacl.decrypt _ _); [|reflexivity].
    destruct (utf8_decode _); reflexivity.
  - unfold PublicKeyFile_retrieve, bind, lift_outcome.
    rewrite Path_exists_eq.
    destruct (stat w self) as [e|[d|]] eqn:Est; cbn [negb];
      unfold ret, read_file; cbn beta iota; rewrite ?Est; reflexivity.
  - apply Hprop.
  - unfold SecretKeyFile_retrieve.
    erewrite bind_eval by reflexivity. cbv beta.
    set (s1 := mkProcess (set_seed (N.succ (w_seed (world s))) (world s))
                 (cached s)).
    destruct (KeySecretBox_init mp (w_seed (world s))) as [box|e];
      [|reflexivity].
    erewrite bind_eval by reflexivity. cbv beta.
    pose proof (Hprop s1) as H1. unfold bind at 1.
    destruct (encrypted_file_bytes self s1) as [[c|e] s2]; [|exact H1].
    simpl in H1. unfold bind, lift_outcome.
    destruct (KeySecretBox_decrypt_message box c mp); [|exact H1].
    destruct (nacl.PrivateKey _); exact H1.
Qed.

End PasswordFiles.

Lemma write_passwd_only_once_witness :
  write_passwd demo.email "again" (OPublicKey demo.public_key) demo.written_world
  = (Raise PasswdFileExistsErr, demo.written_world).
Proof.
  exact (proj2 (write_passwd_only_once demo.email "hunter2"
                  (OPublicKey demo.public_key) demo.store_world
                  demo.written_world eq_refl)
           "again" (OPublicKey demo.public_key)).
Defined.

Lemma write_passwd_failure_leaves_disk_witness :
  resolve demo.empty_world demo.email = inl ENOENT
  /\ w_fs (snd (write_passwd demo.email "hunter2" (OPublicKey demo.public_key)
                  demo.empty_world)) = ∅.
Proof.
  split; [reflexivity|].
  exact (proj2 (write_passwd_failure_leaves_disk demo.email "hunter2"
                  (OPublicKey demo.public_key) demo.empty_world)
           FileNotFoundError eq_refl).
Defined.

(** ** Secret key files *)

Section SecretKeyRoundTrip.
Context `{Crypto}.

(** What is asked of [utils.crypto]: a container read back from its own
    bytes is the container, and a box made from a password opens what a box
    made from the same password has encrypted. *)
Hypothesis from_bytes_of_bytes : forall em,
  PassEncryptedMessage_from_bytes (PassEncryptedMessage_bytes em) = Return em.
Hypothesis decrypt_of_encrypt : forall mp r0 r1 r box box' raw em,
  KeySecretBox_init mp r0 = Return box ->
  KeySecretBox_init mp r1 = Return box' ->
  KeySecretBox_encrypt box r raw = Return em ->
  KeySecretBox_decrypt_message box' em mp = Return raw.

(** X14.  After write_encrypted has returned for a 32-byte private key,
    retrieve with the same master password gives that private key back,
    whatever had been memoized before the write. *)
Theorem write_encrypted_then_retrieve (self : PurePath) (raw : bytes)
    (mp : string) (confirm announce : bool)
    (s s' : Process PassEncryptedMessage) (box' : KeySecretBox) :
  length raw = nacl.SIZE ->
  SecretKeyFile_write_encrypted self (OPrivateKey raw) mp confirm announce s
    = (Return tt, s') ->
  KeySecretBox_init mp (w_seed (world s')) = Return box' ->
  fst (SecretKeyFile_retrieve self mp s') = Return (OPrivateKey raw).
Proof.
  intros Hlen Hw Hi.
  pose proof (write_encrypted_cases self (OPrivateKey raw) mp confirm announce s)
    as Hc.
  cbv zeta in Hc. rewrite Hw in Hc. simpl in Hc.
  destruct Hc as [[e [He _]] | [r [r' [box [raw0 [em [Hb [Hk [He [Hst Hcache]]]]]]]]]];
    [discriminate|].
  inversion Hk; subst raw0.
  rewrite (retrieve_reads_disk self mp s' _ box' Hcache Hst Hi).
  unfold decrypt_file_bytes. rewrite from_bytes_of_bytes.
  rewrite (decrypt_of_encrypt mp r _ r' box box' raw em Hb Hi He).
  unfold nacl.PrivateKey. rewrite Hlen, Nat.eqb_refl. reflexivity.
Qed.

End SecretKeyRoundTrip.

Lemma demo_strip_prefix_app p m : demo.strip_prefix p (p ++ m) = Some m.
Proof.
  induction p as [|a p IH]; simpl; [reflexivity|].
  rewrite (Byte.byte_dec_lb (x:=a) (y:=a) eq_refl). exact IH.
Qed.

Lemma write_encrypted_then_retrieve_witness :
  fst (SecretKeyFile_retrieve demo.alice_enc demo.master_passwd
         (snd (SecretKeyFile_write_encrypted demo.alice_enc
                 (OPrivateKey demo.other_secret_key) demo.master_passwd
                 false false demo.reading_process)))
  = Return (OPrivateKey demo.other_secret_key).
Proof.
  apply (write_encrypted_then_retrieve (H := demo.crypto))
    with (confirm := false) (announce := false) (s := demo.reading_process)
         (box' := demo.master_passwd).
  - intros em. reflexivity.
  - intros mp r0 r1 r box box' raw em Hb Hb' He. simpl in *.
    inversion Hb; inversion Hb'; inversion He; subst.
    unfold demo.decrypt_message. rewrite demo_strip_prefix_app. reflexivity.
  - reflexivity.
  - vm_compute. reflexivity.
  - reflexivity.
Defined.

Section SecretKeyReads.
Context `{Crypto}.

(** X15.  The first retrieve on a file that parses memoizes the container
    whether or not the master password decrypts it, and a retrieve with a
    memoized container uses it without looking at the disk: its result is
    the same in every world, whatever has become of the file. *)
Theorem retrieve_memoizes_container (self : PurePath) (mp : string)
    (s : Process PassEncryptedMessage) (raw : bytes)
    (c : PassEncryptedMessage) (box : KeySecretBox) :
  cached s = None ->
  stat (world s) self = inr (NFile raw) ->
  PassEncryptedMessage_from_bytes raw = Return c ->
  KeySecretBox_init mp (w_seed (world s)) = Return box ->
  cached (snd (SecretKeyFile_retrieve self mp s)) = Some c
  /\ forall w2 mp2 box2,
       KeySecretBox_init mp2 (w_seed w2) = Return box2 ->
       fst (SecretKeyFile_retrieve self mp2 (mkProcess w2 (Some c)))
       = match KeySecretBox_decrypt_message box2 c mp2 with
         | Return plain => nacl.PrivateKey plain
         | Raise e => Raise e
         end.
Proof.
  intros Hc Hst Hp Hi. split.
  - unfold SecretKeyFile_retrieve.
    erewrite bind_eval by reflexivity. cbv beta.
    erewrite bind_eval by (unfold lift_outcome; rewrite Hi; reflexivity).
    cbv beta.
    erewrite bind_eval
      by (apply encrypted_file_bytes_miss with (raw := raw);
          [exact Hc | exact Hst | exact Hp]).
    cbv beta. unfold bind, lift_outcome.
    destruct (KeySecretBox_decrypt_message box c mp); [|reflexivity].
    destruct (nacl.PrivateKey _); reflexivity.
  - intros w2 mp2 box2 Hi2.
    apply (retrieve_uses_cache self mp2 (mkProcess w2 (Some c)) c box2);
      [reflexivity | exact Hi2].
Qed.

(** X16.  With nothing memoized and no file at the path, retrieve
    writes [secret key does not exist in <path>!] to stderr and ends the
    process through [exit(0)], after the box of the master password has
    been made; nothing gets memoized. *)
Theorem SecretKeyFile_retrieve_missing_file (self : PurePath) (mp : string)
    (s : Process PassEncryptedMessage) (e : errno) (box : KeySecretBox) :
  cached s = None ->
  stat (world s) self = inl e ->
  KeySecretBox_init mp (w_seed (world s)) = Return box ->
  SecretKeyFile_retrieve self mp s =
  (Raise (SystemExit 0),
   mkProcess
     (log (Echo true ("secret key does not exist in " +:+ str self +:+ "!"))
        (set_seed (N.succ (w_seed (world s))) (world s)))
     None).
Proof.
  intros Hc Hst Hi. unfold SecretKeyFile_retrieve.
  erewrite bind_eval by reflexivity. cbv beta.
  erewrite bind_eval by (unfold lift_outcome; rewrite Hi; reflexivity).
  cbv beta. apply bind_raise.
  unfold encrypted_file_bytes, bind, gets. simpl. rewrite Hc.
  unfold in_world, encrypted_file_bytes_body, bind. simpl world.
  rewrite Path_exists_eq.
  change (stat (set_seed (N.succ (w_seed (world s))) (world s)) self)
    with (stat (world s) self).
  rewrite Hst. reflexivity.
Qed.

End SecretKeyReads.

Lemma retrieve_memoizes_container_witness :
  cached (snd (SecretKeyFile_retrieve demo.alice_enc "wrong"
                 (mkProcess (world demo.reading_process) None)))
  = Some (list_byte_of_string demo.master_passwd ++ demo.secret_key)
  /\ fst (SecretKeyFile_retrieve demo.alice_enc "wrong"
            (mkProcess (world demo.reading_process) None))
     = Raise CryptoError.
Proof.
  split; [|vm_compute; reflexivity].
  exact (proj1 (retrieve_memoizes_container demo.alice_enc "wrong"
                  (mkProcess (world demo.reading_process) None)
                  (list_byte_of_string demo.master_passwd ++ demo.secret_key)
                  (list_byte_of_string demo.master_passwd ++ demo.secret_key)
                  "wrong" eq_refl eq_refl eq_refl eq_refl)).
Defined.

Lemma SecretKeyFile_retrieve_missing_file_witness :
  fst (SecretKeyFile_retrieve demo.alice_enc demo.master_passwd
         (mkProcess demo.store_world None))
  = Raise (SystemExit 0).
Proof.
  rewrite (SecretKeyFile_retrieve_missing_file (H := demo.crypto)
             demo.alice_enc demo.master_passwd
             (mkProcess demo.store_world None) ENOENT demo.master_passwd
             eq_refl eq_refl eq_refl).
  reflexivity.
Defined.

(** ** Service names that are refused *)

Lemma split_nonempty c s : pystr.split c s <> [].
Proof.
  destruct s as [|a s]; simpl; [discriminate|].
  destruct (Ascii.eqb a c); [discriminate|].
  destruct (pystr.split c s); discriminate.
Qed.

Lemma split_append c s t :
  pystr.split c (s +:+ String c t) = pystr.split c s ++ pystr.split c t.
Proof.
  induction s as [|a s IH].
  - change ("" +:+ String c t) with (String c t). simpl.
    rewrite Ascii.eqb_refl. reflexivity.
  - change (String a s +:+ String c t) with (String a (s +:+ String c t)).
    cbn [pystr.split]. rewrite IH.
    destruct (Ascii.eqb a c); [reflexivity|].
    pose proof (split_nonempty c s) as Hne.
    destruct (pystr.split c s) as [|h tl]; [congruence|]. reflexivity.
Qed.

Lemma append_assoc s t u : (s +:+ t) +:+ u = s +:+ (t +:+ u).
Proof.
  induction s as [|a s IH]; [reflexivity|].
  change ((String a s +:+ t) +:+ u) with (String a ((s +:+ t) +:+ u)).
  rewrite IH. reflexivity.
Qed.

(** The parts of [n + "/.enc"], for a non-empty [n] that does not start
    with a slash, end with the component [.enc]. *)
Lemma parse_trailing_slash n :
  n <> "" -> pystr.startswith sep n = false ->
  exists front, _parse_args [AStr (n +:+ "/.enc")] = mkPath "" (front ++ [".enc"]).
Proof.
  intros Hne Hn. unfold _parse_args, parse_parts. simpl flat_map. simpl rev.
  cbn [parse_loop].
  rewrite (nonempty_append n "/.enc" Hne). cbn [negb].
  assert (Hs : pystr.startswith sep (n +:+ "/.enc") = false)
    by (rewrite startswith_append by exact Hne; exact Hn).
  rewrite (splitroot_relative _ Hs).
  rewrite contains_append. replace (pystr.contains sep "/.enc") with true
    by reflexivity.
  rewrite orb_true_r. cbn [pystr.nonempty app].
  change (n +:+ "/.enc") with (n +:+ String sep ".enc").
  rewrite split_append. change (pystr.split sep ".enc") with [".enc"].
  rewrite rev_app_distr. cbn [rev app].
  rewrite filter_cons_True by reflexivity.
  cbn [rev]. eexists. reflexivity.
Qed.

(** X17.  from_service_name refuses the empty name with EmptyError, and
    it refuses a name that ends in a slash with InvalidFilenameErr, because
    the last component of the path is then the bare [.enc], which has no
    suffix; in both cases nothing else happens. *)
Theorem from_service_name_refused (service_name : string) (store : PurePath)
    (w : World) :
  from_service_name "" store w = (Raise EmptyError, w)
  /\ (parse_parts (_parts store) = store -> is_absolute store = true ->
      service_name <> "" -> pystr.startswith sep service_name = false ->
      from_service_name (service_name +:+ "/") store w
      = (Raise InvalidFilenameErr, w)).
Proof.
  split; [reflexivity|].
  intros Hstore Habs Hne Hrel.
  assert (Hne' : service_name +:+ "/" <> "")
    by (destruct service_name; [congruence | discriminate]).
  assert (Hrel' : pystr.startswith sep (service_name +:+ "/") = false)
    by (rewrite startswith_append by exact Hne; exact Hrel).
  rewrite (from_service_name_relative _ _ w Hstore Habs Hne' Hrel'). cbv zeta.
  unfold PASSWD_FILE_EXT. rewrite append_assoc.
  change ("/" +:+ ".enc") with "/.enc".
  destruct (parse_trailing_slash service_name Hne Hrel) as [front Hfront].
  rewrite Hfront. cbn [_parts].
  assert (Hsfx : suffix (mkPath (_root store) (_parts store ++ front ++ [".enc"]))
                 = "").
  { assert (Hparts : _parts store <> []).
    { destruct (fixed_is_parsed store Hstore) as [Hp _].
      unfold parsed_path in Hp. unfold is_absolute in Habs. rewrite Habs in Hp.
      destruct Hp as [rest [-> _]]. discriminate. }
    unfold suffix, name. cbn [_parts _root]. rewrite !length_app. cbn [length].
    destruct (_parts store) as [|x parts]; [congruence|]. cbn [length].
    replace (_ =? _)%nat with false
      by (symmetry; apply Nat.eqb_neq; destruct (pystr.nonempty (_root store)); lia).
    rewrite app_assoc, List.last_last. reflexivity. }
  rewrite Hsfx. reflexivity.
Qed.

Lemma from_service_name_refused_witness :
  from_service_name "mail/" demo.store demo.store_world
  = (Raise InvalidFilenameErr, demo.store_world).
Proof.
  exact (proj2 (from_service_name_refused "mail" demo.store demo.store_world)
           eq_refl eq_refl ltac:(discriminate) eq_refl).
Defined.

Lemma exn_eq_AttributeError (e : exn) : e = AttributeError \/ e <> AttributeError.
Proof. destruct e; (left; reflexivity) || (right; discriminate). Qed.

(** ** What write_encrypted reads back *)

Section ReadBack.
Context `{Crypto}.

(** write_encrypted on a path where there is no file yet: no prompt, the
    box is made and the key encrypted, and the steps that touch the disk
    follow. *)
Lemma write_encrypted_fresh self raw mp (confirm announce : bool) w cache box em :
  stat w self = inl ENOENT ->
  KeySecretBox_init mp (w_seed w) = Return box ->
  KeySecretBox_encrypt box (N.succ (w_seed w)) raw = Return em ->
  SecretKeyFile_write_encrypted self (OPrivateKey raw) mp confirm announce
    (mkProcess w cache) =
  (in_world (Path_mkdir (parent self) true) >>
   in_world (with_open_wb self (ret (PassEncryptedMessage_bytes em))) >>
   invalidate self >>
   if announce
   then in_world (click_echo ("secret key file written at " +:+ str self) false)
   else ret tt)
    (mkProcess (set_seed (N.succ (N.succ (w_seed w))) w) cache).
Proof.
  intros Hst Hi He. unfold SecretKeyFile_write_encrypted.
  destruct (confirm_step_disk self confirm w) as [_ [_ [_ Hstep]]].
  erewrite bind_eval by (apply in_world_eval; apply Hstep; exact Hst).
  cbv beta. simpl cached.
  erewrite bind_eval by reflexivity. cbv beta.
  erewrite bind_eval by (unfold lift_outcome; simpl; rewrite Hi; reflexivity).
  cbv beta.
  erewrite bind_eval by reflexivity. cbv beta.
  erewrite bind_eval by reflexivity. cbv beta.
  erewrite bind_eval by (unfold lift_outcome; simpl; rewrite He; reflexivity).
  reflexivity.
Qed.

Lemma encrypted_file_bytes_parse_error self s raw e :
  cached s = None ->
  stat (world s) self = inr (NFile raw) ->
  PassEncryptedMessage_from_bytes raw = Raise e ->
  encrypted_file_bytes self s = (Raise e, mkProcess (world s) None).
Proof.
  intros Hc Hst Hp.
  unfold encrypted_file_bytes, bind, gets. simpl. rewrite Hc.
  unfold in_world, encrypted_file_bytes_body, bind, lift_outcome.
  rewrite Path_exists_eq, Hst. cbn [negb].
  unfold ret, read_file. cbn beta iota. rewrite Hst, Hp, Hc. reflexivity.
Qed.

(** X18.  With nothing memoized, write_encrypted parses the file it has
    just written, because [hasattr] fetches the memoized property: when the
    parse succeeds the call returns with nothing memoized; when it raises
    anything but AttributeError, write_encrypted raises that error although
    the new file is on disk, and prints no message. *)
Theorem write_encrypted_parses_what_it_wrote (dcomps : list string)
    (nm : string) (raw : bytes) (mp : string) (confirm announce : bool)
    (w : World) (box : KeySecretBox) (em : PassEncryptedMessage)
    (kd : list string) :
  KeySecretBox_init mp (w_seed w) = Return box ->
  KeySecretBox_encrypt box (N.succ (w_seed w)) raw = Return em ->
  walk (w_fs w) [] dcomps = inr kd ->
  lookup_node (w_fs w) kd = Some NDir ->
  lookup_node (w_fs w) (kd ++ [nm]) = None ->
  nm <> ".." ->
  let res :=
    SecretKeyFile_write_encrypted (under dcomps nm) (OPrivateKey raw) mp
      confirm announce (mkProcess w None) in
  stat (world (snd res)) (under dcomps nm)
    = inr (NFile (PassEncryptedMessage_bytes em))
  /\ (forall c,
        PassEncryptedMessage_from_bytes (PassEncryptedMessage_bytes em) = Return c ->
        fst res = Return tt /\ cached (snd res) = None)
  /\ (forall e,
        PassEncryptedMessage_from_bytes (PassEncryptedMessage_bytes em) = Raise e ->
        e <> AttributeError ->
        fst res = Raise e /\ w_trace (world (snd res)) = w_trace w).
Proof.
  intros Hi He Hw Hkd Hnm Hdots res.
  set (self := under dcomps nm) in *.
  set (w2 := set_seed (N.succ (N.succ (w_seed w))) w).
  assert (Hnm' : String.eqb nm ".." = false) by (apply String.eqb_neq; exact Hdots).
  assert (Hr : resolve w2 self = inr (kd ++ [nm])).
  { unfold self. rewrite resolve_under. simpl w_fs. rewrite Hw. simpl.
    rewrite Hkd, Hnm'. reflexivity. }
  assert (Hst : stat w self = inl ENOENT).
  { unfold stat. change (resolve w self) with (resolve w2 self).
    rewrite Hr, Hnm. reflexivity. }
  set (w3 := set_fs (insert (kd ++ [nm]) (NFile (PassEncryptedMessage_bytes em))) w2).
  assert (Hst3 : stat w3 self = inr (NFile (PassEncryptedMessage_bytes em))).
  { apply stat_after_write; [exact Hr|]. simpl w_fs. rewrite Hnm. discriminate. }
  assert (Hres : res =
    (invalidate self >>
     if announce
     then in_world (click_echo ("secret key file written at " +:+ str self) false)
     else ret tt) (mkProcess w3 None)).
  { unfold res. fold self.
    rewrite (write_encrypted_fresh self raw mp confirm announce w None box em
               Hst Hi He).
    fold w2.
    erewrite bind_eval
      by (apply in_world_eval; apply Path_mkdir_existing with (k := kd);
          [unfold self; rewrite resolve_parent_under; exact Hw | exact Hkd]).
    cbv beta.
    erewrite bind_eval
      by (apply in_world_eval; apply with_open_wb_ret;
          [exact Hr | simpl w_fs; rewrite Hnm; discriminate]).
    reflexivity. }
  rewrite Hres. clear Hres res.
  destruct (PassEncryptedMessage_from_bytes (PassEncryptedMessage_bytes em))
    as [c|e] eqn:Ep.
  - assert (Hinv : invalidate self (mkProcess w3 None)
                   = (Return tt, mkProcess w3 None)).
    { unfold invalidate, hasattr_encrypted_file_bytes, try_except.
      erewrite bind_eval.
      2: { erewrite bind_eval
             by (apply encrypted_file_bytes_miss
                   with (raw := PassEncryptedMessage_bytes em);
                 [reflexivity | exact Hst3 | exact Ep]).
           reflexivity. }
      reflexivity. }
    rewrite (bind_eval _ _ _ _ _ Hinv). cbv beta.
    split; [destruct announce; exact Hst3|].
    split.
    + intros c' _. destruct announce; split; reflexivity.
    + intros e Habs. discriminate.
  - pose proof (encrypted_file_bytes_parse_error self (mkProcess w3 None)
                  _ e eq_refl Hst3 Ep) as Hfail.
    simpl world in Hfail.
    destruct (exn_eq_AttributeError e) as [-> | Hne].
    + assert (Hinv : invalidate self (mkProcess w3 None)
                     = (Return tt, mkProcess w3 None)).
      { unfold invalidate, hasattr_encrypted_file_bytes, try_except.
        erewrite bind_eval.
        2: { unfold bind at 1. rewrite Hfail. reflexivity. }
        reflexivity. }
      rewrite (bind_eval _ _ _ _ _ Hinv). cbv beta.
      split; [destruct announce; exact Hst3|].
      split; [intros c Habs; discriminate|].
      intros e' He' Hne'. inversion He'; subst. congruence.
    + assert (Hinv : invalidate self (mkProcess w3 None)
                     = (Raise e, mkProcess w3 None)).
      { unfold invalidate, hasattr_encrypted_file_bytes, try_except.
        apply bind_raise. unfold bind at 1. rewrite Hfail.
        destruct e; try reflexivity. congruence. }
      rewrite (bind_raise _ _ _ _ _ Hinv).
      split; [exact Hst3|].
      split; [intros c Habs; discriminate|].
      intros e' He' _. inversion He'; subst. split; reflexivity.
Qed.

End ReadBack.

Lemma write_encrypted_parses_what_it_wrote_witness :
  stat (world (snd (SecretKeyFile_write_encrypted (under ["s"] "alice.enc")
                      (OPrivateKey demo.secret_key) demo.master_passwd
                      true true (mkProcess demo.store_world None))))
    (under ["s"] "alice.enc")
  = inr (NFile (list_byte_of_string demo.master_passwd ++ demo.secret_key)).
Proof.
  exact (proj1 (write_encrypted_parses_what_it_wrote (H := demo.crypto)
                  ["s"] "alice.enc" demo.secret_key demo.master_passwd
                  true true demo.store_world demo.master_passwd
                  (list_byte_of_string demo.master_passwd ++ demo.secret_key)
                  ["s"] eq_refl eq_refl eq_refl eq_refl eq_refl
                  ltac:(discriminate))).
Defined.
